(** * A shallow embedding of the Tetris draft (tetrisDraft.cpp)

    The development follows the C++ translation unit: the [int] arithmetic
    the coordinates live in, [std::vector] indexing, the [Tetromino] class
    and the [TetrisGame] class.  Member functions the class declares
    without defining them are modelled from the specification and say so
    in their documentation. *)

From Stdlib Require Import ZArith Ascii Lia.
From stdpp Require Import base tactics option numbers list strings pretty.

Local Open Scope Z_scope.

(** ** Machine integers and vectors *)

Module Int.

(** [int] is a 32-bit two's complement integer. *)
Definition INT_MIN : Z := - 2 ^ 31.
Definition INT_MAX : Z := 2 ^ 31 - 1.

Definition in_range (z : Z) : Prop := INT_MIN <= z <= INT_MAX.

(** Reduction of a mathematical result into the representable range. *)
Definition wrap (z : Z) : Z := (z + 2 ^ 31) mod 2 ^ 32 - 2 ^ 31.

Definition neg (a : Z) : Z := wrap (- a).
Definition add (a b : Z) : Z := wrap (a + b).

(** [a % b] truncates towards zero. *)
Definition rem (a b : Z) : Z := Z.rem a b.

End Int.

Module Vec.

(** [v[i]] for an [int] index.  The index is converted to the unsigned
    [size_type], so a negative [i] becomes a value beyond the size of any
    vector: like every index [>= v.size()] it has no defined behaviour,
    which is [None] here. *)
Definition at_ {A : Type} (v : list A) (i : Z) : option A :=
  if decide (0 <= i) then v !! Z.to_nat i else None.

End Vec.

(** ** Tetromino types, points and shapes *)

(** [enum class TetrominoType]: the enumerators are scoped, [TetrominoType::I]
    in the source and [TetrominoType.I] here. *)
Module TetrominoType.
Inductive t : Type := I | O | T | S | Z | J | L | NONE.
End TetrominoType.

Global Instance TetrominoType_eq_dec : EqDecision TetrominoType.t.
Proof. solve_decision. Defined.

(** The enumerators' underlying values, [(int)type]. *)
Definition int_of_type (ty : TetrominoType.t) : Z :=
  match ty with
  | TetrominoType.I => 0
  | TetrominoType.O => 1
  | TetrominoType.T => 2
  | TetrominoType.S => 3
  | TetrominoType.Z => 4
  | TetrominoType.J => 5
  | TetrominoType.L => 6
  | TetrominoType.NONE => 7
  end.

(** [static_cast<TetrominoType>(n)]: the enumerator whose value is [n];
    a value that names no enumerator is [None]. *)
Definition type_of_int (n : Z) : option TetrominoType.t :=
  match n with
  | 0 => Some TetrominoType.I
  | 1 => Some TetrominoType.O
  | 2 => Some TetrominoType.T
  | 3 => Some TetrominoType.S
  | 4 => Some TetrominoType.Z
  | 5 => Some TetrominoType.J
  | 6 => Some TetrominoType.L
  | 7 => Some TetrominoType.NONE
  | _ => None
  end.

(** The seven types a piece in play can have. *)
Definition realTypes : list TetrominoType.t :=
  [TetrominoType.I; TetrominoType.O; TetrominoType.T; TetrominoType.S;
   TetrominoType.Z; TetrominoType.J; TetrominoType.L].

Record Point : Type := mkPoint { x : Z; y : Z }.

Global Instance Point_eq_dec : EqDecision Point.
Proof. solve_decision. Defined.

Definition pt (a b : Z) : Point := {| x := a; y := b |}.

Definition point_in_range (p : Point) : Prop :=
  Int.in_range (x p) /\ Int.in_range (y p).

Module Tetromino.

Record t : Type := mk { type : TetrominoType.t; blocks : list Point; rotation : Z }.

(** [Tetromino::baseShapes], in the order of the enumerators. *)
Definition baseShapes : list (list Point) :=
  [ [pt 0 0; pt 1 0; pt 2 0; pt 3 0];   (* I *)
    [pt 0 0; pt 1 0; pt 0 1; pt 1 1];   (* O *)
    [pt 0 0; pt 1 0; pt 2 0; pt 1 1];   (* T *)
    [pt 1 0; pt 2 0; pt 0 1; pt 1 1];   (* S *)
    [pt 0 0; pt 1 0; pt 1 1; pt 2 1];   (* Z *)
    [pt 0 0; pt 0 1; pt 1 1; pt 2 1];   (* J *)
    [pt 2 0; pt 0 1; pt 1 1; pt 2 1] ]. (* L *)

(** [Tetromino::Tetromino(TetrominoType type)]: [type] and [rotation(0)]
    from the initialiser list, [blocks] left empty for [NONE] and copied
    from [baseShapes[(int)type]] otherwise.  The guard keeps the index
    inside the table ([new_index_in_table] below), so the default of the
    lookup is never used. *)
Definition new (ty : TetrominoType.t) : t :=
  {| type := ty;
     blocks := if decide (ty <> TetrominoType.NONE)
               then default [] (Vec.at_ baseShapes (int_of_type ty))
               else [];
     rotation := 0 |}.

(** [Tetromino::rotate]: every block [(x, y)] becomes [(-y, x)]. *)
Definition rotate (p : t) : t :=
  {| type := type p;
     blocks := map (fun block => {| x := Int.neg (y block); y := x block |}) (blocks p);
     rotation := rotation p |}.

(** [Tetromino::move]: every block is shifted by [(dx, dy)] in place. *)
Definition move (dx dy : Z) (p : t) : t :=
  {| type := type p;
     blocks := map (fun block => {| x := Int.add (x block) dx;
                                    y := Int.add (y block) dy |}) (blocks p);
     rotation := rotation p |}.

(** [Tetromino::getMovedShape]: the shifted blocks, the piece untouched. *)
Definition getMovedShape (dx dy : Z) (p : t) : list Point :=
  map (fun block => {| x := Int.add (x block) dx; y := Int.add (y block) dy |})
      (blocks p).

(** Operations a caller can apply to a piece after constructing it. *)
Inductive op : Type :=
| Rotate : op
| Move : Z -> Z -> op.

Definition apply (o : op) (p : t) : t :=
  match o with
  | Rotate => rotate p
  | Move dx dy => move dx dy p
  end.

(** The operations of [ops] applied from left to right. *)
Definition run (ops : list op) (p : t) : t :=
  fold_left (fun q o => apply o q) ops p.

End Tetromino.

(** ** The game *)

Module TetrisGame.

Definition GRID_WIDTH : Z := 10.
Definition GRID_HEIGHT : Z := 20.

(** The data members of [class TetrisGame].  [fallSpeed] is a [float]
    that only the initialiser list writes ([0.8f]); no function below
    reads it and it is left out. *)
Record t : Type := mk {
  grid : list (list ascii);
  currentPiece : Tetromino.t;
  score : Z;
  level : Z;
  linesCleared : Z;
  gameOver : bool;
  paused : bool
}.

Definition blank : ascii := " "%char.

(** [std::vector<char>(GRID_WIDTH, ' ')] and the grid built from it. *)
Definition emptyRow : list ascii := replicate (Z.to_nat GRID_WIDTH) blank.
Definition emptyGrid : list (list ascii) := replicate (Z.to_nat GRID_HEIGHT) emptyRow.

(** The shape the constructor gives the grid: [GRID_HEIGHT] rows of
    [GRID_WIDTH] cells. *)
Definition grid_shape (g : list (list ascii)) : Prop :=
  length g = Z.to_nat GRID_HEIGHT /\
  Forall (fun row => length row = Z.to_nat GRID_WIDTH) g.

(** The bounds test of [checkCollision], on one block. *)
Definition out_of_bounds (block : Point) : bool :=
  bool_decide (x block < 0) || bool_decide (x block >= GRID_WIDTH)
  || bool_decide (y block >= GRID_HEIGHT).

(** [grid[block.y][block.x]]. *)
Definition cell (g : list (list ascii)) (block : Point) : option ascii :=
  row ← Vec.at_ g (y block); Vec.at_ row (x block).

(** [TetrisGame::checkCollision].  The loop returns [true] at the first
    block that fails the bounds test or sits on a non-blank cell, and
    [false] after the last block.  The result is [None] when the loop
    indexes the grid out of range. *)
Fixpoint checkCollision_loop (g : list (list ascii)) (blocks : list Point)
  : option bool :=
  match blocks with
  | [] => Some false
  | block :: rest =>
      if out_of_bounds block then Some true
      else
        c ← cell g block;
        if bool_decide (c <> blank) then Some true
        else checkCollision_loop g rest
  end.

Definition checkCollision (this : t) (blocks : list Point) : option bool :=
  checkCollision_loop (grid this) blocks.

(** [TetrisGame::getRandomPieceType], for the value [r] that
    [std::rand()] returned. *)
Definition getRandomPieceType (r : Z) : option TetrominoType.t :=
  type_of_int (Int.rem r 7).

(** [TetrisGame::generateNewPiece], for the value [r] of [std::rand()]. *)
Definition generateNewPiece (r : Z) (this : t) : option t :=
  ty ← getRandomPieceType r;
  let piece := Tetromino.new ty in
  let this1 := mk (grid this) piece (score this) (level this)
                  (linesCleared this) (gameOver this) (paused this) in
  collides ← checkCollision this1 (Tetromino.blocks piece);
  Some (if (collides : bool)
        then mk (grid this1) (currentPiece this1) (score this1) (level this1)
                (linesCleared this1) true (paused this1)
        else this1).

(** [TetrisGame::initializeGame]. *)
Definition initializeGame (r : Z) (this : t) : option t :=
  generateNewPiece r
    (mk emptyGrid (currentPiece this) (score this) (level this)
        (linesCleared this) (gameOver this) (paused this)).

(** [TetrisGame::TetrisGame()]: the initialiser list, then
    [initializeGame()]. *)
Definition new (r : Z) : option t :=
  initializeGame r
    (mk emptyGrid (Tetromino.new TetrominoType.NONE) 0 1 0 false false).

(** The characters [drawGrid] writes for one cell: [[]] for ['#'], two
    blanks for anything else. *)
Definition drawCell (c : ascii) : list ascii :=
  if decide (c = "#"%char) then ["["%char; "]"%char] else [" "%char; " "%char].

Definition newline : ascii := "010"%char.

(** One pass of the outer loop of [drawGrid]: a bar, the cells of the
    row, a bar and a line break. *)
Definition drawRow (row : list ascii) : list ascii :=
  "|"%char :: concat (map drawCell row) ++ ["|"%char; newline].

(** The rows of the grid as [drawGrid] writes them, from the top. *)
Definition drawRows (g : list (list ascii)) : list ascii :=
  concat (map drawRow g).

(** The first line of a frame; [operator<<] writes an [int] in decimal. *)
Definition drawHeader (this : t) : list ascii :=
  String.list_ascii_of_string "Score: " ++ String.list_ascii_of_string (pretty (score this))
  ++ String.list_ascii_of_string " Level: " ++ String.list_ascii_of_string (pretty (level this))
  ++ [newline].

(** [TetrisGame::drawGrid]: the characters sent to [std::cout].  The
    call [system(CLEAR_SCREEN)] that precedes them acts on the terminal
    and is not part of the text. *)
Definition drawGrid (this : t) : list ascii :=
  drawHeader this ++ drawRows (grid this).

(** *** Member functions the class declares and the source leaves out *)

(** The marker of a settled block, the one [drawGrid] prints as [[]]. *)
Definition filled : ascii := "#"%char.

(** Modelled from the spec: the full-row test of [clearLines], which the
    source does not define.  Section 4.3: a row is full when every cell
    of it is occupied; a cell is occupied when it is not blank, as
    [checkCollision] reads it. *)
Definition rowFull (row : list ascii) : bool :=
  forallb (fun c => bool_decide (c <> blank)) row.

(** Modelled from the spec: the compaction pass of [clearLines], which
    the source does not define.  One scan over the rows from the top: the
    rows that are not full, in their order, and the number of full rows
    met. *)
Fixpoint removeFullRows (rows : list (list ascii)) : list (list ascii) * Z :=
  match rows with
  | [] => ([], 0)
  | row :: below =>
      let '(kept, n) := removeFullRows below in
      if rowFull row then (kept, n + 1) else (row :: kept, n)
  end.

(** Modelled from the spec: [TetrisGame::clearLines] is declared in the
    class and has no definition in the source.  Section 4.3: every full
    row is removed in one pass, the rows above it move down, one empty
    row is inserted at the top for each removed row, and the number of
    removed rows is returned. *)
Definition clearLines (this : t) : t * Z :=
  let '(kept, n) := removeFullRows (grid this) in
  (mk (replicate (Z.to_nat n) emptyRow ++ kept) (currentPiece this)
      (score this) (level this) (linesCleared this) (gameOver this)
      (paused this),
   n).

(** Modelled from the spec: the score table of [updateScore], which
    the source does not define.  Section 4.4: 40, 100, 300 and 1200 for
    1 to 4 lines, nothing for 0 lines; a count outside the table earns
    nothing. *)
Definition basePoints (lines : Z) : Z :=
  match lines with
  | 1 => 40
  | 2 => 100
  | 3 => 300
  | 4 => 1200
  | _ => 0
  end.

(** Modelled from the spec: [TetrisGame::updateScore] is declared in the
    class and has no definition in the source.  Section 4.4:
    points = base x (level + 1), added to the score. *)
Definition updateScore (lines : Z) (this : t) : t :=
  mk (grid this) (currentPiece this)
     (score this + basePoints lines * (level this + 1))
     (level this) (linesCleared this) (gameOver this) (paused this).

(** Modelled from the spec: the update of the running total of cleared
    lines, which no function of the source performs.  Section 4.4: the
    total accumulates. *)
Definition addLines (lines : Z) (this : t) : t :=
  mk (grid this) (currentPiece this) (score this) (level this)
     (linesCleared this + lines) (gameOver this) (paused this).

(** Modelled from the spec: [TetrisGame::updateLevel] is declared in the
    class and has no definition in the source.  Section 4.4 gives the
    policy by example, one level for every [perLevel] lines cleared in
    total, and leaves the threshold [perLevel] to the implementer; the
    first level is 1, as the constructor sets it. *)
Definition updateLevel (perLevel : Z) (this : t) : t :=
  mk (grid this) (currentPiece this) (score this)
     (1 + linesCleared this / perLevel)
     (linesCleared this) (gameOver this) (paused this).

(** Modelled from the spec: the lock step, which the source does not
    define.  Section 4.2: the blocks of the piece are copied into the
    field.  A block outside the grid leaves no mark. *)
Definition lockBlock (g : list (list ascii)) (block : Point) : list (list ascii) :=
  if decide (0 <= y block /\ 0 <= x block)
  then alter (fun row => <[Z.to_nat (x block) := filled]> row)
             (Z.to_nat (y block)) g
  else g.

(** Modelled from the spec: the lock step on the whole piece. *)
Definition lockPiece (this : t) : t :=
  mk (fold_left lockBlock (Tetromino.blocks (currentPiece this)) (grid this))
     (currentPiece this) (score this) (level this) (linesCleared this)
     (gameOver this) (paused this).

(** [score], [level] and [linesCleared] are [int] members: a value
    assigned to one of them is reduced to 32 bits. *)
Definition storeCounters (this : t) : t :=
  mk (grid this) (currentPiece this) (Int.wrap (score this)) (Int.wrap (level this))
     (Int.wrap (linesCleared this)) (gameOver this) (paused this).

(** Modelled from the spec: the three counter updates that follow a
    clearing pass of [lines] rows, each one stored into its [int]
    member. *)
Definition accumulate (perLevel lines : Z) (this : t) : t :=
  storeCounters (updateLevel perLevel
    (storeCounters (addLines lines
      (storeCounters (updateScore lines this))))).

(** Modelled from the spec: what follows a failed gravity step, which
    the source does not define.  Sections 4.2 to 4.5: lock, clear, score,
    level, spawn. *)
Definition settle (perLevel r : Z) (this : t) : option t :=
  let '(cleared, n) := clearLines (lockPiece this) in
  generateNewPiece r (accumulate perLevel n cleared).

(** The game with [piece] as its current piece. *)
Definition withPiece (piece : Tetromino.t) (this : t) : t :=
  mk (grid this) piece (score this) (level this) (linesCleared this)
     (gameOver this) (paused this).

(** Modelled from the spec: [movePieceLeft], [movePieceRight] and the
    soft drop are declared in the class and have no definition in the
    source.  Section 4.5: the candidate is computed, validated by the
    collision check and committed only if legal. *)
Definition tryMove (dx dy : Z) (this : t) : option t :=
  collides ← checkCollision this (Tetromino.getMovedShape dx dy (currentPiece this));
  Some (if (collides : bool) then this
        else withPiece (Tetromino.move dx dy (currentPiece this)) this).

Definition movePieceLeft : t -> option t := tryMove (-1) 0.
Definition movePieceRight : t -> option t := tryMove 1 0.
Definition softDrop : t -> option t := tryMove 0 1.

(** Modelled from the spec: [rotatePiece], declared and not defined. *)
Definition rotatePiece (this : t) : option t :=
  collides ← checkCollision this (Tetromino.blocks (Tetromino.rotate (currentPiece this)));
  Some (if (collides : bool) then this
        else withPiece (Tetromino.rotate (currentPiece this)) this).

(** Modelled from the spec: [movePieceDown], the gravity step: one row
    down when that is legal, the lock sequence otherwise. *)
Definition movePieceDown (perLevel r : Z) (this : t) : option t :=
  collides ← checkCollision this (Tetromino.getMovedShape 0 1 (currentPiece this));
  if (collides : bool) then settle perLevel r this
  else Some (withPiece (Tetromino.move 0 1 (currentPiece this)) this).

(** Modelled from the spec: the operations of a running game that
    section 4.5 dispatches to, [handleInput] and [updateGrid] having no
    definition in the source.  A hard drop is a run of gravity steps
    ended by the one that locks. *)
Inductive input : Type :=
| MoveLeft | MoveRight | RotateCW | SoftDrop
| Gravity (r : Z).  (* [r]: the [std::rand()] value of the spawn *)

(** Modelled from the spec: the dispatch of one operation. *)
Definition step (perLevel : Z) (i : input) (this : t) : option t :=
  match i with
  | MoveLeft => movePieceLeft this
  | MoveRight => movePieceRight this
  | RotateCW => rotatePiece this
  | SoftDrop => softDrop this
  | Gravity r => movePieceDown perLevel r this
  end.

(** The draws an operation uses come from [std::rand()]. *)
Definition input_ok (i : input) : Prop :=
  match i with
  | Gravity r => 0 <= r <= Int.INT_MAX
  | _ => True
  end.

(** Modelled from the spec: the states of one session, the freshly
    constructed game and what the operations make of it. *)
Inductive session (perLevel : Z) : t -> Prop :=
| session_new r g :
    0 <= r <= Int.INT_MAX -> new r = Some g -> session perLevel g
| session_step i g g' :
    session perLevel g -> input_ok i -> step perLevel i g = Some g' ->
    session perLevel g'.

End TetrisGame.

(** ** Vocabulary of the statements *)

(** The cell under a block is occupied. *)
Definition occupied (g : list (list ascii)) (block : Point) : bool :=
  match TetrisGame.cell g block with
  | Some c => bool_decide (c <> TetrisGame.blank)
  | None => false
  end.

(** The two tests of the collision loop on one block. *)
Definition collides_at (g : list (list ascii)) (block : Point) : bool :=
  TetrisGame.out_of_bounds block || occupied g block.

(** A block inside the grid. *)
Definition in_bounds (block : Point) : Prop :=
  0 <= x block < TetrisGame.GRID_WIDTH /\ 0 <= y block < TetrisGame.GRID_HEIGHT.

(** The indices of the full rows, counted from the top row [start]. *)
Fixpoint fullRowsFrom (start : nat) (rows : list (list ascii)) : list nat :=
  match rows with
  | [] => []
  | row :: below =>
      if TetrisGame.rowFull row then start :: fullRowsFrom (S start) below
      else fullRowsFrom (S start) below
  end.

Definition fullRowIndices (g : list (list ascii)) : list nat := fullRowsFrom 0 g.

(** A game at a given level, everything else as in [this]. *)
Definition atLevel (l : Z) (this : TetrisGame.t) : TetrisGame.t :=
  TetrisGame.mk (TetrisGame.grid this) (TetrisGame.currentPiece this)
                (TetrisGame.score this) l (TetrisGame.linesCleared this)
                (TetrisGame.gameOver this) (TetrisGame.paused this).

(** A game with a given grid, everything else as in [this]. *)
Definition onGrid (g : list (list ascii)) (this : TetrisGame.t) : TetrisGame.t :=
  TetrisGame.mk g (TetrisGame.currentPiece this)
                (TetrisGame.score this) (TetrisGame.level this)
                (TetrisGame.linesCleared this)
                (TetrisGame.gameOver this) (TetrisGame.paused this).

(** A sequence of operations, from left to right; [None] as soon as one
    of them has no defined result. *)
Fixpoint play (perLevel : Z) (inputs : list TetrisGame.input) (this : TetrisGame.t)
  : option TetrisGame.t :=
  match inputs with
  | [] => Some this
  | i :: rest => this' ← TetrisGame.step perLevel i this; play perLevel rest this'
  end.









(** The game [this] with the three counters of [c]. *)
Definition withCounters (c this : TetrisGame.t) : TetrisGame.t :=
  TetrisGame.mk (TetrisGame.grid this) (TetrisGame.currentPiece this)
                (TetrisGame.score c) (TetrisGame.level c) (TetrisGame.linesCleared c)
                (TetrisGame.gameOver this) (TetrisGame.paused this).

(** The number of rows the operation [i] clears on [this]: one number if
    it is a gravity step that locks the piece, none otherwise. *)
Definition clearedBy (i : TetrisGame.input) (this : TetrisGame.t) : list Z :=
  match i with
  | TetrisGame.Gravity _ =>
      match TetrisGame.checkCollision this
              (Tetromino.getMovedShape 0 1 (TetrisGame.currentPiece this)) with
      | Some true => [snd (TetrisGame.clearLines (TetrisGame.lockPiece this))]
      | _ => []
      end
  | _ => []
  end.

(** The numbers of rows cleared by the locks of a run, in order. *)
Fixpoint cleared (perLevel : Z) (inputs : list TetrisGame.input) (this : TetrisGame.t)
  : list Z :=
  match inputs with
  | [] => []
  | i :: rest =>
      clearedBy i this
      ++ match TetrisGame.step perLevel i this with
         | Some next => cleared perLevel rest next
         | None => []
         end
  end.




(** The constructed game for the draw [r = 0], an I piece over the empty
    grid. *)
Definition firstGame : TetrisGame.t :=
  TetrisGame.mk TetrisGame.emptyGrid (Tetromino.new TetrominoType.I) 0 1 0 false false.

(** A row of occupied cells, and a grid whose rows 5 and 7 are full with
    a partly filled row between them and above them. *)
Definition fullRow : list ascii :=
  replicate (Z.to_nat TetrisGame.GRID_WIDTH) TetrisGame.filled.

Definition partRow (filledCells : nat) : list ascii :=
  replicate filledCells TetrisGame.filled
  ++ replicate (Z.to_nat TetrisGame.GRID_WIDTH - filledCells) TetrisGame.blank.

Definition rows57 : list (list ascii) :=
  replicate 4 TetrisGame.emptyRow ++ [partRow 3; fullRow; partRow 7; fullRow]
  ++ replicate 12 (partRow 9).

(** A game whose grid has the two leftmost columns filled up to the top
    row. *)
Definition toppedOut : TetrisGame.t :=
  onGrid (replicate (Z.to_nat TetrisGame.GRID_HEIGHT) (partRow 2)) firstGame.



(** What makes every operation of a session defined: the grid has the
    constructor's shape and the blocks of the piece are inside it. *)
Definition well_formed (this : TetrisGame.t) : Prop :=
  TetrisGame.grid_shape (TetrisGame.grid this) /\
  Forall in_bounds (Tetromino.blocks (TetrisGame.currentPiece this)).

(** A short game on the empty grid: an I piece falls in columns 0-3, a
    second one in columns 4-7, then an O piece in columns 8-9; the last
    gravity step of [bottomRowInputs] leaves the O piece resting on the
    floor with the bottom row complete but for its lock. *)
Definition bottomRowInputs : list TetrisGame.input :=
  replicate 19 (TetrisGame.Gravity 0) ++ [TetrisGame.Gravity 0]
  ++ replicate 4 TetrisGame.MoveRight
  ++ replicate 19 (TetrisGame.Gravity 0) ++ [TetrisGame.Gravity 1]
  ++ replicate 8 TetrisGame.MoveRight
  ++ replicate 18 (TetrisGame.Gravity 0).

Definition beforeClear : TetrisGame.t :=
  default firstGame (play 10 bottomRowInputs firstGame).

Definition afterClear : TetrisGame.t :=
  default firstGame (TetrisGame.step 10 (TetrisGame.Gravity 5) beforeClear).

(** The cells of a grid that hold the marker ['#'], the ones [drawGrid]
    shows as blocks. *)
Definition marked (g : list (list ascii)) : list (list bool) :=
  map (map (fun c => bool_decide (c = "#"%char))) g.

(** A character that is neither the blank nor the line break, the two
    separators of the first line of a frame. *)
Definition plain_char (c : ascii) : Prop :=
  c <> " "%char /\ c <> TetrisGame.newline.

(** ** Proof automation *)

(** Split on the outcome of a collision check inside an operation. *)
Ltac case_collision H :=
  match type of H with
  | context [TetrisGame.checkCollision ?g ?bs] =>
      destruct (TetrisGame.checkCollision g bs) as [[|]|];
      cbn [mbind option_bind] in H; try discriminate H
  end.

(** * Properties *)

(** ** [int] arithmetic *)

Lemma wrap_in_range (z : Z) : Int.in_range z -> Int.wrap z = z.
Proof.
  unfold Int.in_range, Int.INT_MIN, Int.INT_MAX, Int.wrap. intros Hz.
  rewrite Z.mod_small; lia.
Qed.

Lemma wrap_range (z : Z) : Int.in_range (Int.wrap z).
Proof.
  unfold Int.in_range, Int.INT_MIN, Int.INT_MAX, Int.wrap.
  pose proof (Z.mod_pos_bound (z + 2 ^ 31) (2 ^ 32)). lia.
Qed.

(** Negation is an involution on [int], also at [INT_MIN], which it maps
    to itself. *)
Lemma neg_neg (z : Z) : Int.in_range z -> Int.neg (Int.neg z) = z.
Proof.
  intros Hz. unfold Int.neg.
  destruct (decide (z = Int.INT_MIN)) as [-> | Hne].
  - reflexivity.
  - rewrite (wrap_in_range (- z)).
    + rewrite Z.opp_involutive. now apply wrap_in_range.
    + unfold Int.in_range, Int.INT_MIN, Int.INT_MAX in *. lia.
Qed.

(** ** The piece *)

Lemma new_index_in_table (ty : TetrominoType.t) :
  ty <> TetrominoType.NONE -> is_Some (Vec.at_ Tetromino.baseShapes (int_of_type ty)).
Proof. destruct ty; intros Hne; try (eexists; reflexivity); congruence. Qed.

Lemma rotate4_blocks (bs : list Point) :
  Forall point_in_range bs ->
  map (fun block => {| x := Int.neg (y block); y := x block |})
    (map (fun block => {| x := Int.neg (y block); y := x block |})
      (map (fun block => {| x := Int.neg (y block); y := x block |})
        (map (fun block => {| x := Int.neg (y block); y := x block |}) bs)))
  = bs.
Proof.
  induction 1 as [| [bx by_] bs [Hx Hy] _ IH]; [reflexivity |].
  cbn [map x y] in *. rewrite IH. f_equal.
  now rewrite !neg_neg.
Qed.

(** C3: four rotations in succession give back the piece: its blocks (the
    per-block transform (x, y) -> (-y, x) composed four times is the
    identity on [int] coordinates), its type and its rotation field. *)
Theorem rotate_four_times (p : Tetromino.t) :
  Forall point_in_range (Tetromino.blocks p) ->
  Tetromino.rotate (Tetromino.rotate (Tetromino.rotate (Tetromino.rotate p))) = p.
Proof.
  intros Hr. destruct p as [ty bs rot]. unfold Tetromino.rotate. cbn.
  f_equal. now apply rotate4_blocks.
Qed.

Lemma T_piece_in_range : Forall point_in_range (Tetromino.blocks (Tetromino.new TetrominoType.T)).
Proof.
  repeat constructor; cbv; intros Hc; discriminate Hc.
Defined.

Lemma rotate_four_times_witness :
  Forall point_in_range (Tetromino.blocks (Tetromino.new TetrominoType.T)) /\
  Tetromino.rotate (Tetromino.rotate (Tetromino.rotate (Tetromino.rotate
    (Tetromino.new TetrominoType.T)))) = Tetromino.new TetrominoType.T.
Proof.
  split; [exact T_piece_in_range |].
  apply (rotate_four_times (Tetromino.new TetrominoType.T)). exact T_piece_in_range.
Defined.

(** A single rotation does move an asymmetric piece: the T piece leaves
    the grid on the left. *)
Example rotate_T_once :
  Tetromino.blocks (Tetromino.rotate (Tetromino.new TetrominoType.T))
  = [pt 0 0; pt 0 1; pt 0 2; pt (-1) 1].
Proof. reflexivity. Qed.

(** C7: constructing a piece of any of the seven types gives the four
    points of that type's entry in the shape table [baseShapes], with
    rotation 0. *)
Theorem new_base_layout (ty : TetrominoType.t) :
  ty <> TetrominoType.NONE ->
  exists layout,
    Vec.at_ Tetromino.baseShapes (int_of_type ty) = Some layout /\
    Tetromino.blocks (Tetromino.new ty) = layout /\
    length layout = 4%nat /\
    Tetromino.rotation (Tetromino.new ty) = 0 /\
    Tetromino.type (Tetromino.new ty) = ty.
Proof.
  intros Hne.
  destruct ty; try congruence; eexists; repeat split; reflexivity.
Qed.

Lemma new_base_layout_witness :
  TetrominoType.S <> TetrominoType.NONE /\
  exists layout,
    Vec.at_ Tetromino.baseShapes (int_of_type TetrominoType.S) = Some layout /\
    Tetromino.blocks (Tetromino.new TetrominoType.S) = layout /\
    length layout = 4%nat /\
    Tetromino.rotation (Tetromino.new TetrominoType.S) = 0 /\
    Tetromino.type (Tetromino.new TetrominoType.S) = TetrominoType.S.
Proof.
  assert (Hne : TetrominoType.S <> TetrominoType.NONE) by (intros Hc; discriminate Hc).
  split; [exact Hne | exact (new_base_layout TetrominoType.S Hne)].
Defined.

(** The seven layouts, spelled out. *)
Example new_layouts :
  map (fun ty => Tetromino.blocks (Tetromino.new ty)) realTypes
  = Tetromino.baseShapes.
Proof. reflexivity. Qed.

Example new_NONE : Tetromino.blocks (Tetromino.new TetrominoType.NONE) = [].
Proof. reflexivity. Qed.

(** ** The random piece *)

Lemma rem7_cases (r : Z) :
  0 <= r ->
  Int.rem r 7 = 0 \/ Int.rem r 7 = 1 \/ Int.rem r 7 = 2 \/ Int.rem r 7 = 3 \/
  Int.rem r 7 = 4 \/ Int.rem r 7 = 5 \/ Int.rem r 7 = 6.
Proof.
  intros Hr. unfold Int.rem.
  pose proof (Z.rem_bound_pos r 7 Hr). lia.
Qed.

Lemma getRandomPieceType_spawnable (r : Z) :
  0 <= r <= Int.INT_MAX ->
  exists ty, TetrisGame.getRandomPieceType r = Some ty /\ ty <> TetrominoType.NONE.
Proof.
  intros [Hr _]. unfold TetrisGame.getRandomPieceType.
  destruct (rem7_cases r Hr) as [E | [E | [E | [E | [E | [E | E]]]]]];
    rewrite E; eexists; (split; [reflexivity | discriminate]).
Qed.

(** C9: for every value [std::rand()] can return, the piece type drawn is
    one of the seven real types, never [NONE], and the piece built from it
    has four blocks. *)
Theorem getRandomPieceType_real (r : Z) :
  0 <= r <= Int.INT_MAX ->
  exists ty,
    TetrisGame.getRandomPieceType r = Some ty /\
    ty <> TetrominoType.NONE /\
    In ty realTypes /\
    length (Tetromino.blocks (Tetromino.new ty)) = 4%nat.
Proof.
  intros [Hr _]. unfold TetrisGame.getRandomPieceType.
  destruct (rem7_cases r Hr) as [E | [E | [E | [E | [E | [E | E]]]]]];
    rewrite E; eexists; (split; [reflexivity |]);
    (split; [discriminate |]); (split; [cbn; tauto | reflexivity]).
Qed.

Lemma getRandomPieceType_real_witness :
  0 <= 16807 <= Int.INT_MAX /\
  exists ty,
    TetrisGame.getRandomPieceType 16807 = Some ty /\
    ty <> TetrominoType.NONE /\
    In ty realTypes /\
    length (Tetromino.blocks (Tetromino.new ty)) = 4%nat.
Proof.
  assert (Hr : 0 <= 16807 <= Int.INT_MAX) by (unfold Int.INT_MAX; lia).
  split; [exact Hr | exact (getRandomPieceType_real 16807 Hr)].
Defined.

(** ** The rotation field *)

Lemma apply_rotation (o : Tetromino.op) (p : Tetromino.t) :
  Tetromino.rotation (Tetromino.apply o p) = Tetromino.rotation p.
Proof. destruct o; reflexivity. Qed.

Lemma apply_type (o : Tetromino.op) (p : Tetromino.t) :
  Tetromino.type (Tetromino.apply o p) = Tetromino.type p.
Proof. destruct o; reflexivity. Qed.

Lemma run_rotation (ops : list Tetromino.op) (p : Tetromino.t) :
  Tetromino.rotation (Tetromino.run ops p) = Tetromino.rotation p.
Proof.
  revert p. induction ops as [| o ops IH]; intros p; [reflexivity |].
  cbn. unfold Tetromino.run in IH. rewrite IH. apply apply_rotation.
Qed.

(** C10: whatever sequence of [rotate] and [move] is applied to a piece
    after its construction, its rotation field is still the 0 the
    constructor wrote, and its type is unchanged: both operations write
    the blocks only. *)
Theorem rotation_field_constant (ty : TetrominoType.t) (ops : list Tetromino.op) :
  Tetromino.rotation (Tetromino.run ops (Tetromino.new ty)) = 0 /\
  (forall p o, Tetromino.rotation (Tetromino.apply o p) = Tetromino.rotation p /\
               Tetromino.type (Tetromino.apply o p) = Tetromino.type p).
Proof.
  split.
  - now rewrite run_rotation.
  - intros p o. split; [apply apply_rotation | apply apply_type].
Qed.

(** ** Indexing the grid *)

Lemma at_defined {A : Type} (v : list A) (i : Z) :
  0 <= i < Z.of_nat (length v) -> is_Some (Vec.at_ v i).
Proof.
  intros Hi. unfold Vec.at_. rewrite decide_True by lia.
  apply lookup_lt_is_Some. lia.
Qed.

Lemma at_negative {A : Type} (v : list A) (i : Z) : i < 0 -> Vec.at_ v i = None.
Proof. intros Hi. unfold Vec.at_. now rewrite decide_False by lia. Qed.

Lemma cell_negative_row (g : list (list ascii)) (block : Point) :
  y block < 0 -> TetrisGame.cell g block = None.
Proof. intros Hy. unfold TetrisGame.cell. now rewrite at_negative. Qed.

Lemma cell_defined (g : list (list ascii)) (block : Point) :
  TetrisGame.grid_shape g -> in_bounds block -> is_Some (TetrisGame.cell g block).
Proof.
  intros [Hlen Hrows] [Hx Hy]. unfold TetrisGame.cell.
  unfold TetrisGame.GRID_WIDTH, TetrisGame.GRID_HEIGHT in *.
  destruct (at_defined g (y block)) as [row Hrow]; [lia |].
  rewrite Hrow. cbn. apply at_defined.
  unfold Vec.at_ in Hrow. rewrite decide_True in Hrow by lia.
  apply list_elem_of_lookup_2 in Hrow.
  rewrite Forall_forall in Hrows. rewrite (Hrows row Hrow). lia.
Qed.

Lemma emptyGrid_shape : TetrisGame.grid_shape TetrisGame.emptyGrid.
Proof.
  split; [reflexivity |]. unfold TetrisGame.emptyGrid.
  apply Forall_replicate. reflexivity.
Qed.

Lemma cell_emptyGrid (block : Point) :
  in_bounds block -> TetrisGame.cell TetrisGame.emptyGrid block = Some TetrisGame.blank.
Proof.
  intros [Hx Hy]. unfold TetrisGame.cell, TetrisGame.emptyGrid, TetrisGame.emptyRow, Vec.at_.
  unfold TetrisGame.GRID_WIDTH, TetrisGame.GRID_HEIGHT in *.
  rewrite decide_True by lia.
  rewrite (proj2 (lookup_replicate _ _ _ _)) by (split; [reflexivity | lia]).
  cbn. rewrite decide_True by lia.
  apply lookup_replicate. split; [reflexivity | lia].
Qed.

Lemma not_out_of_bounds (block : Point) :
  TetrisGame.out_of_bounds block = false ->
  0 <= x block < TetrisGame.GRID_WIDTH /\ y block < TetrisGame.GRID_HEIGHT.
Proof.
  unfold TetrisGame.out_of_bounds. intros H.
  apply orb_false_iff in H as [H Hy]. apply orb_false_iff in H as [Hl Hr].
  apply bool_decide_eq_false in Hl, Hr, Hy. lia.
Qed.

Lemma out_of_bounds_true (block : Point) :
  TetrisGame.out_of_bounds block = true <->
  x block < 0 \/ x block >= TetrisGame.GRID_WIDTH \/ y block >= TetrisGame.GRID_HEIGHT.
Proof.
  unfold TetrisGame.out_of_bounds.
  rewrite !orb_true_iff, !bool_decide_eq_true. tauto.
Qed.

(** ** The collision check below the top edge *)

(** On a grid of the constructor's shape and for blocks that are not
    above the top row, the loop is defined and answers whether some block
    fails one of its two tests. *)
Lemma checkCollision_loop_spec (g : list (list ascii)) (blocks : list Point) :
  TetrisGame.grid_shape g ->
  Forall (fun block => 0 <= y block) blocks ->
  TetrisGame.checkCollision_loop g blocks = Some (existsb (collides_at g) blocks).
Proof.
  intros Hg. induction 1 as [| block rest Hy _ IH]; [reflexivity |].
  cbn [TetrisGame.checkCollision_loop existsb]. unfold collides_at at 1, occupied.
  destruct (TetrisGame.out_of_bounds block) eqn:Hb; [reflexivity |].
  apply not_out_of_bounds in Hb as [Hx Hy'].
  destruct (cell_defined g block Hg) as [c Hc]; [split; lia |].
  rewrite Hc. cbn. destruct (bool_decide (c <> TetrisGame.blank)); [reflexivity | exact IH].
Qed.

Lemma checkCollision_true (g : list (list ascii)) (blocks : list Point) :
  TetrisGame.grid_shape g ->
  Forall (fun block => 0 <= y block) blocks ->
  Exists (fun block => x block < 0 \/ x block >= TetrisGame.GRID_WIDTH \/
                       y block >= TetrisGame.GRID_HEIGHT \/
                       occupied g block = true) blocks ->
  TetrisGame.checkCollision_loop g blocks = Some true.
Proof.
  intros Hg Hy Hex. rewrite checkCollision_loop_spec by assumption. f_equal.
  apply existsb_exists. apply Exists_exists in Hex as (block & Hin & Hb).
  exists block. split; [now apply list_elem_of_In |].
  unfold collides_at. apply orb_true_iff.
  destruct Hb as [Hb | [Hb | [Hb | Hb]]]; [left | left | left | now right];
    apply out_of_bounds_true; tauto.
Qed.

Lemma checkCollision_empty (blocks : list Point) :
  Forall in_bounds blocks ->
  TetrisGame.checkCollision_loop TetrisGame.emptyGrid blocks = Some false.
Proof.
  induction 1 as [| block rest Hb _ IH]; [reflexivity |].
  cbn [TetrisGame.checkCollision_loop].
  replace (TetrisGame.out_of_bounds block) with false.
  - rewrite (cell_emptyGrid block Hb). cbn.
    rewrite bool_decide_eq_false_2 by (intros Hc; now apply Hc). exact IH.
  - symmetry. apply not_true_is_false. rewrite out_of_bounds_true.
    destruct Hb. lia.
Qed.

(** ** The collision check above the top edge *)

(** A candidate that passes the bounds test with a block above the top
    row is never reported legal: the loop stops at an occupied cell before
    it, or it indexes the grid at a negative row. *)
Lemma checkCollision_above_never_legal (g : list (list ascii)) (blocks : list Point) :
  Forall (fun block => 0 <= x block < TetrisGame.GRID_WIDTH /\
                       y block < TetrisGame.GRID_HEIGHT) blocks ->
  Exists (fun block => y block < 0) blocks ->
  TetrisGame.checkCollision_loop g blocks <> Some false.
Proof.
  induction 1 as [| block rest Hb _ IH]; intros Hex.
  - inversion Hex.
  - cbn [TetrisGame.checkCollision_loop].
    destruct (TetrisGame.out_of_bounds block); [discriminate |].
    apply Exists_cons in Hex as [Hneg | Hex].
    + now rewrite cell_negative_row.
    + destruct (TetrisGame.cell g block) as [c |]; cbn; [| discriminate].
      destruct (bool_decide (c <> TetrisGame.blank)); [discriminate | now apply IH].
Qed.

(** On the empty grid nothing stops the loop before the block above the
    top row: the check of such a candidate has no defined result. *)
Lemma checkCollision_above_empty_undefined (blocks : list Point) :
  Forall (fun block => 0 <= x block < TetrisGame.GRID_WIDTH /\
                       y block < TetrisGame.GRID_HEIGHT) blocks ->
  Exists (fun block => y block < 0) blocks ->
  TetrisGame.checkCollision_loop TetrisGame.emptyGrid blocks = None.
Proof.
  induction 1 as [| block rest [Hx Hy] _ IH]; intros Hex.
  - inversion Hex.
  - cbn [TetrisGame.checkCollision_loop].
    replace (TetrisGame.out_of_bounds block) with false
      by (symmetry; apply not_true_is_false; rewrite out_of_bounds_true; lia).
    destruct (decide (y block < 0)) as [Hneg | Hpos].
    + now rewrite cell_negative_row.
    + apply Exists_cons in Hex as [Hneg | Hex]; [contradiction |].
      rewrite cell_emptyGrid by (split; unfold TetrisGame.GRID_HEIGHT in *; lia).
      cbn. rewrite bool_decide_eq_false_2 by (intros Hc; now apply Hc).
      now apply IH.
Qed.

Example new_0 : TetrisGame.new 0 = Some firstGame.
Proof. reflexivity. Qed.

(** C1: the claim fails on the code at the candidate (0,-1), (1,-1),
    (-1,0), (0,0), an S piece that hangs over the left wall and the top
    edge of the empty grid: the third block has x < 0, yet the check does
    not return true.  The first block
    passes the bounds test, which has no lower bound on y, and the loop
    reads [grid[-1][0]]. *)
Theorem checkCollision_wall_after_negative_row :
  TetrisGame.checkCollision firstGame [pt 0 (-1); pt 1 (-1); pt (-1) 0; pt 0 0] = None /\
  TetrisGame.out_of_bounds (pt (-1) 0) = true.
Proof. split; reflexivity. Qed.

(** C2: the claim fails on the code at the candidate (4,-1), (5,-1),
    (4,0), (5,0), an O piece across the top edge of the empty grid: every
    block has 0 <= x < 10 and y < 20, and the check reads [grid[-1][4]],
    outside the grid; it does not answer that the candidate is legal. *)
Theorem checkCollision_above_top_undefined :
  TetrisGame.checkCollision firstGame [pt 4 (-1); pt 5 (-1); pt 4 0; pt 5 0] = None /\
  TetrisGame.cell (TetrisGame.grid firstGame) (pt 4 (-1)) = None.
Proof. split; reflexivity. Qed.

(** ** Spawning *)

Lemma new_blocks_in_bounds (ty : TetrominoType.t) :
  Forall in_bounds (Tetromino.blocks (Tetromino.new ty)).
Proof.
  destruct ty; cbn; repeat constructor; cbv; intros Hc; discriminate Hc.
Qed.

Lemma in_bounds_below_top (blocks : list Point) :
  Forall in_bounds blocks -> Forall (fun block => 0 <= y block) blocks.
Proof.
  intros Hin. eapply Forall_impl; [exact Hin |].
  intros block [_ Hy]. lia.
Qed.

(** The check of a freshly constructed piece is always defined. *)
Lemma checkCollision_new_defined (this : TetrisGame.t) (ty : TetrominoType.t) :
  TetrisGame.grid_shape (TetrisGame.grid this) ->
  TetrisGame.checkCollision this (Tetromino.blocks (Tetromino.new ty))
  = Some (existsb (occupied (TetrisGame.grid this)) (Tetromino.blocks (Tetromino.new ty))).
Proof.
  intros Hg. unfold TetrisGame.checkCollision.
  rewrite checkCollision_loop_spec;
    [| assumption | apply in_bounds_below_top, new_blocks_in_bounds].
  f_equal. pose proof (new_blocks_in_bounds ty) as Hin.
  induction Hin as [| block rest [Hx Hy] _ IH]; [reflexivity |].
  cbn [existsb]. rewrite IH. f_equal. unfold collides_at.
  replace (TetrisGame.out_of_bounds block) with false; [reflexivity |].
  symmetry. apply not_true_is_false. rewrite out_of_bounds_true. lia.
Qed.

(** The constructor never leaves the game over: the new piece is checked
    against the empty grid. *)
Lemma new_defined (r : Z) :
  0 <= r <= Int.INT_MAX ->
  exists ty,
    TetrisGame.getRandomPieceType r = Some ty /\
    TetrisGame.new r
    = Some (TetrisGame.mk TetrisGame.emptyGrid (Tetromino.new ty) 0 1 0 false false).
Proof.
  intros Hr. destruct (getRandomPieceType_spawnable r Hr) as (ty & Hty & _).
  exists ty. split; [exact Hty |].
  unfold TetrisGame.new, TetrisGame.initializeGame, TetrisGame.generateNewPiece.
  rewrite Hty. cbn [mbind option_bind]. unfold TetrisGame.checkCollision.
  cbn [TetrisGame.grid].
  rewrite checkCollision_empty by apply new_blocks_in_bounds. reflexivity.
Qed.

(** C4: [generateNewPiece] installs the new piece and sets the game-over
    flag exactly when the collision check of the new piece's blocks is
    true; without a spawn collision it leaves the flag as it was, and it
    writes nothing else.  The only other write of the flag in the source
    is the constructor's initialiser, and the constructed game is not
    over. *)
Theorem generateNewPiece_gameOver (r : Z) (this : TetrisGame.t) :
  0 <= r <= Int.INT_MAX ->
  TetrisGame.grid_shape (TetrisGame.grid this) ->
  exists ty collides this',
    TetrisGame.getRandomPieceType r = Some ty /\
    TetrisGame.checkCollision this (Tetromino.blocks (Tetromino.new ty)) = Some collides /\
    TetrisGame.generateNewPiece r this = Some this' /\
    TetrisGame.currentPiece this' = Tetromino.new ty /\
    (collides = true -> TetrisGame.gameOver this' = true) /\
    (collides = false -> TetrisGame.gameOver this' = TetrisGame.gameOver this) /\
    TetrisGame.grid this' = TetrisGame.grid this /\
    TetrisGame.score this' = TetrisGame.score this /\
    TetrisGame.level this' = TetrisGame.level this /\
    TetrisGame.linesCleared this' = TetrisGame.linesCleared this /\
    TetrisGame.paused this' = TetrisGame.paused this /\
    exists fresh, TetrisGame.new r = Some fresh /\ TetrisGame.gameOver fresh = false.
Proof.
  intros Hr Hg.
  destruct (new_defined r Hr) as (ty0 & _ & Hnew).
  destruct (getRandomPieceType_spawnable r Hr) as (ty & Hty & _).
  pose proof (checkCollision_new_defined this ty Hg) as Hc.
  exists ty, (existsb (occupied (TetrisGame.grid this)) (Tetromino.blocks (Tetromino.new ty))).
  unfold TetrisGame.generateNewPiece. rewrite Hty. cbn [mbind option_bind].
  unfold TetrisGame.checkCollision in *. cbn [TetrisGame.grid]. rewrite Hc.
  cbn [mbind option_bind].
  eexists. split; [reflexivity |]. split; [reflexivity |]. split; [reflexivity |].
  rewrite Hnew.
  destruct (existsb _ _); cbn; repeat split; try congruence;
    (eexists; split; reflexivity).
Qed.

Lemma generateNewPiece_gameOver_witness :
  0 <= 3 <= Int.INT_MAX /\
  TetrisGame.grid_shape (TetrisGame.grid toppedOut) /\
  exists ty collides this',
    TetrisGame.getRandomPieceType 3 = Some ty /\
    TetrisGame.checkCollision toppedOut (Tetromino.blocks (Tetromino.new ty)) = Some collides /\
    TetrisGame.generateNewPiece 3 toppedOut = Some this' /\
    TetrisGame.currentPiece this' = Tetromino.new ty /\
    (collides = true -> TetrisGame.gameOver this' = true) /\
    (collides = false -> TetrisGame.gameOver this' = TetrisGame.gameOver toppedOut) /\
    TetrisGame.grid this' = TetrisGame.grid toppedOut /\
    TetrisGame.score this' = TetrisGame.score toppedOut /\
    TetrisGame.level this' = TetrisGame.level toppedOut /\
    TetrisGame.linesCleared this' = TetrisGame.linesCleared toppedOut /\
    TetrisGame.paused this' = TetrisGame.paused toppedOut /\
    exists fresh, TetrisGame.new 3 = Some fresh /\ TetrisGame.gameOver fresh = false.
Proof.
  assert (Hr : 0 <= 3 <= Int.INT_MAX) by (unfold Int.INT_MAX; lia).
  assert (Hg : TetrisGame.grid_shape (TetrisGame.grid toppedOut))
    by (split; [reflexivity | repeat constructor]).
  exact (conj Hr (conj Hg (generateNewPiece_gameOver 3 toppedOut Hr Hg))).
Defined.

(** The S piece spawned onto the topped-out grid ends the game; spawned
    onto the empty grid it does not. *)
Example spawn_topped_out :
  TetrisGame.gameOver <$> TetrisGame.generateNewPiece 3 toppedOut = Some true.
Proof. reflexivity. Qed.

Example spawn_empty :
  TetrisGame.gameOver <$> TetrisGame.generateNewPiece 3 firstGame = Some false.
Proof. reflexivity. Qed.

(** ** Clearing lines *)

Lemma removeFullRows_spec (start : nat) (rows : list (list ascii)) :
  TetrisGame.removeFullRows rows
  = (filter (fun row => TetrisGame.rowFull row = false) rows,
     Z.of_nat (length (fullRowsFrom start rows))).
Proof.
  revert start. induction rows as [| row below IH]; intros start; [reflexivity |].
  cbn [TetrisGame.removeFullRows fullRowsFrom]. rewrite (IH (S start)).
  rewrite filter_cons.
  destruct (TetrisGame.rowFull row) eqn:Hfull.
  - rewrite decide_False by discriminate. cbn [length]. f_equal. lia.
  - rewrite decide_True by reflexivity. reflexivity.
Qed.

Lemma removeFullRows_count (rows : list (list ascii)) :
  0 <= snd (TetrisGame.removeFullRows rows).
Proof. rewrite (removeFullRows_spec 0). cbn. lia. Qed.

Lemma removeFullRows_length (rows : list (list ascii)) :
  (length (fst (TetrisGame.removeFullRows rows))
   + Z.to_nat (snd (TetrisGame.removeFullRows rows)) = length rows)%nat.
Proof.
  induction rows as [| row below IH]; [reflexivity |].
  cbn [TetrisGame.removeFullRows].
  pose proof (removeFullRows_count below) as Hn.
  destruct (TetrisGame.removeFullRows below) as [kept n]. cbn [fst snd] in *.
  destruct (TetrisGame.rowFull row); cbn [fst snd length]; lia.
Qed.

Lemma fullRowsFrom_ge (start : nat) (rows : list (list ascii)) (i : nat) :
  i ∈ fullRowsFrom start rows -> (start <= i)%nat.
Proof.
  revert start. induction rows as [| row below IH]; intros start Hin.
  - inversion Hin.
  - cbn [fullRowsFrom] in Hin. destruct (TetrisGame.rowFull row).
    + apply elem_of_cons in Hin as [-> | Hin]; [lia |]. apply IH in Hin. lia.
    + apply IH in Hin. lia.
Qed.

(** The indices of the full rows say of every row whether it is full. *)
Lemma rowFull_of_indices (start : nat) (rows : list (list ascii)) :
  map TetrisGame.rowFull rows
  = map (fun i => bool_decide (i ∈ fullRowsFrom start rows)) (seq start (length rows)).
Proof.
  revert start. induction rows as [| row below IH]; intros start; [reflexivity |].
  cbn [map length seq fullRowsFrom]. rewrite (IH (S start)).
  destruct (TetrisGame.rowFull row) eqn:Hfull.
  - f_equal.
    + symmetry. apply bool_decide_eq_true. apply elem_of_cons. now left.
    + apply map_ext_in. intros i Hi. apply in_seq in Hi.
      apply bool_decide_ext. rewrite elem_of_cons. split; [tauto |].
      intros [-> | Hin]; [lia | exact Hin].
  - f_equal. symmetry. apply bool_decide_eq_false. intros Hin.
    apply fullRowsFrom_ge in Hin. lia.
Qed.

(** C5: one clearing pass removes exactly the full rows and returns how
    many they are, putting as many empty rows on top, so the height is
    kept; on a grid of 20 rows of which exactly rows 5 and 7 are full, it
    returns 2 and leaves two empty rows, then the old rows 0-4 (moved down
    by two), the old row 6 (moved down by one) and the old rows 8-19. *)
Theorem clearLines_full_rows (this : TetrisGame.t) :
  (snd (TetrisGame.clearLines this)
   = Z.of_nat (length (fullRowIndices (TetrisGame.grid this))) /\
   fst (TetrisGame.clearLines this)
   = onGrid (replicate (length (fullRowIndices (TetrisGame.grid this))) TetrisGame.emptyRow
             ++ filter (fun row => TetrisGame.rowFull row = false) (TetrisGame.grid this))
            this /\
   length (TetrisGame.grid (fst (TetrisGame.clearLines this)))
   = length (TetrisGame.grid this)) /\
  (length (TetrisGame.grid this) = Z.to_nat TetrisGame.GRID_HEIGHT ->
   fullRowIndices (TetrisGame.grid this) = [5; 7]%nat ->
   TetrisGame.clearLines this
   = (onGrid ([TetrisGame.emptyRow; TetrisGame.emptyRow]
              ++ take 5 (TetrisGame.grid this)
              ++ take 1 (drop 6 (TetrisGame.grid this))
              ++ drop 8 (TetrisGame.grid this)) this,
      2)).
Proof.
  split.
  - unfold TetrisGame.clearLines, fullRowIndices.
    pose proof (removeFullRows_length (TetrisGame.grid this)) as Hlen.
    rewrite (removeFullRows_spec 0) in *. cbn [fst snd TetrisGame.grid] in *.
    rewrite Nat2Z.id in *. repeat split.
    rewrite length_app, length_replicate. lia.
  - destruct this as [g piece sc lv total over pz]. cbn [TetrisGame.grid].
    intros Hlen Hfull. unfold TetrisGame.clearLines, onGrid. cbn [TetrisGame.grid
      TetrisGame.currentPiece TetrisGame.score TetrisGame.level
      TetrisGame.linesCleared TetrisGame.gameOver TetrisGame.paused].
    pose proof (rowFull_of_indices 0 g) as Hrows.
    fold (fullRowIndices g) in Hrows. rewrite Hfull, Hlen in Hrows.
    change (map _ (seq 0 _))
      with (replicate 5 false ++ [true; false; true] ++ replicate 12 false) in Hrows.
    do 20 (destruct g as [| ? g]; [discriminate Hlen |]).
    destruct g; [| discriminate Hlen]. clear Hlen Hfull.
    cbn [map replicate app] in Hrows. simplify_eq.
    cbn [TetrisGame.removeFullRows].
    repeat match goal with E : TetrisGame.rowFull _ = _ |- _ => rewrite E; clear E end.
    reflexivity.
Qed.

Lemma clearLines_full_rows_witness :
  length (TetrisGame.grid (onGrid rows57 firstGame)) = Z.to_nat TetrisGame.GRID_HEIGHT /\
  fullRowIndices (TetrisGame.grid (onGrid rows57 firstGame)) = [5; 7]%nat /\
  TetrisGame.clearLines (onGrid rows57 firstGame)
  = (onGrid ([TetrisGame.emptyRow; TetrisGame.emptyRow]
             ++ take 5 rows57 ++ take 1 (drop 6 rows57) ++ drop 8 rows57)
            (onGrid rows57 firstGame),
     2).
Proof.
  split; [reflexivity |]. split; [reflexivity |].
  apply (proj2 (clearLines_full_rows (onGrid rows57 firstGame))); reflexivity.
Defined.

(** The same pass, evaluated: the rows that were at 4 and 6 end at 6 and 7. *)
Example clearLines_rows57 :
  TetrisGame.grid (fst (TetrisGame.clearLines (onGrid rows57 firstGame)))
  = replicate 6 TetrisGame.emptyRow ++ [partRow 3; partRow 7] ++ replicate 12 (partRow 9).
Proof. reflexivity. Qed.

(** ** Scoring *)


(** C6: the score update adds base x (level + 1) points, with base 0, 40,
    100, 300, 1200 for 0 to 4 lines: 40, 100, 300, 1200 at level 0 and
    80, 200, 600, 2400 at level 1; it writes nothing but the score. *)
Theorem updateScore_table (this : TetrisGame.t) (lines : Z) :
  TetrisGame.score (TetrisGame.updateScore lines this)
  = TetrisGame.score this + TetrisGame.basePoints lines * (TetrisGame.level this + 1) /\
  map TetrisGame.basePoints [0; 1; 2; 3; 4] = [0; 40; 100; 300; 1200] /\
  map (fun n => TetrisGame.score (TetrisGame.updateScore n (atLevel 0 this))
                - TetrisGame.score this) [0; 1; 2; 3; 4]
  = [0; 40; 100; 300; 1200] /\
  map (fun n => TetrisGame.score (TetrisGame.updateScore n (atLevel 1 this))
                - TetrisGame.score this) [0; 1; 2; 3; 4]
  = [0; 80; 200; 600; 2400] /\
  TetrisGame.updateScore lines this
  = TetrisGame.mk (TetrisGame.grid this) (TetrisGame.currentPiece this)
      (TetrisGame.score (TetrisGame.updateScore lines this))
      (TetrisGame.level this) (TetrisGame.linesCleared this)
      (TetrisGame.gameOver this) (TetrisGame.paused this).
Proof.
  split; [reflexivity |]. split; [reflexivity |].
  split; [| split; [| reflexivity]];
    cbn [map atLevel TetrisGame.updateScore TetrisGame.score TetrisGame.level
         TetrisGame.basePoints];
    repeat (f_equal; try lia).
Qed.

(** ** The counters, computed exactly *)












(** ** The [int] counters while nothing overflows *)






Lemma session_play (perLevel : Z) (inputs : list TetrisGame.input)
    (this this' : TetrisGame.t) :
  TetrisGame.session perLevel this ->
  Forall TetrisGame.input_ok inputs ->
  play perLevel inputs this = Some this' ->
  TetrisGame.session perLevel this'.
Proof.
  intros Hs Hok. revert this Hs.
  induction Hok as [| i rest Hi _ IH]; intros this Hs Hplay.
  - injection Hplay as <-. exact Hs.
  - cbn [play] in Hplay.
    destruct (TetrisGame.step perLevel i this) as [next |] eqn:Hstep;
      cbn [mbind option_bind] in Hplay; [| discriminate Hplay].
    apply (IH next); [| exact Hplay].
    exact (TetrisGame.session_step perLevel i this next Hs Hi Hstep).
Defined.

Lemma bottomRowInputs_ok : Forall TetrisGame.input_ok bottomRowInputs.
Proof.
  repeat constructor; cbv; intros Hc; discriminate Hc.
Defined.

Lemma firstGame_session : TetrisGame.session 10 firstGame.
Proof.
  apply (TetrisGame.session_new 10 0 firstGame); [| reflexivity].
  unfold Int.INT_MAX. lia.
Defined.

Lemma beforeClear_session : TetrisGame.session 10 beforeClear.
Proof.
  apply (session_play 10 bottomRowInputs firstGame);
    [exact firstGame_session | exact bottomRowInputs_ok |].
  vm_compute. reflexivity.
Defined.


(** ** The score past [INT_MAX] *)

(** The operations read the grid and the piece only: the counters of a
    run are those of its locks, whatever the counters at the start. *)
Lemma accumulate_withCounters (perLevel n : Z) (c this : TetrisGame.t) :
  TetrisGame.accumulate perLevel n (withCounters c this)
  = withCounters (TetrisGame.accumulate perLevel n c) this.
Proof. reflexivity. Qed.






Lemma withCounters_withCounters (c c' this : TetrisGame.t) :
  withCounters c (withCounters c' this) = withCounters c this.
Proof. reflexivity. Qed.









(** The lock that completes the bottom row clears it: 80 points at level
    1, one line in the total, the upper half of the O piece left on the
    floor, and the game goes on. *)
Example bottom_row_cleared :
  (TetrisGame.score beforeClear, TetrisGame.linesCleared beforeClear) = (0, 0) /\
  fullRowIndices (TetrisGame.grid (TetrisGame.lockPiece beforeClear)) = [19%nat] /\
  (TetrisGame.score afterClear, TetrisGame.level afterClear,
   TetrisGame.linesCleared afterClear, TetrisGame.gameOver afterClear)
  = (80, 1, 1, false) /\
  TetrisGame.grid afterClear
  = replicate 19 TetrisGame.emptyRow
    ++ [replicate 8 TetrisGame.blank ++ replicate 2 TetrisGame.filled].
Proof. vm_compute. repeat split. Qed.

(** ** Every operation of a session is defined *)

Lemma checkCollision_legal_in_bounds (g : list (list ascii)) (blocks : list Point) :
  TetrisGame.grid_shape g ->
  Forall (fun block => 0 <= y block) blocks ->
  TetrisGame.checkCollision_loop g blocks = Some false ->
  Forall in_bounds blocks.
Proof.
  intros Hg Hy. rewrite checkCollision_loop_spec by assumption.
  intros [= Hex]. induction Hy as [| block rest Hy _ IH]; [constructor |].
  cbn [existsb] in Hex. apply orb_false_iff in Hex as [Hb Hrest].
  constructor; [| now apply IH].
  unfold collides_at in Hb. apply orb_false_iff in Hb as [Hb _].
  apply not_out_of_bounds in Hb. split; [tauto | lia].
Qed.

Lemma add_small (a d : Z) : -20 <= a <= 20 -> -1 <= d <= 1 -> Int.add a d = a + d.
Proof.
  intros Ha Hd. apply wrap_in_range.
  unfold Int.in_range, Int.INT_MIN, Int.INT_MAX. lia.
Qed.

Lemma neg_small (a : Z) : -20 <= a <= 20 -> Int.neg a = - a.
Proof.
  intros Ha. apply wrap_in_range.
  unfold Int.in_range, Int.INT_MIN, Int.INT_MAX. lia.
Qed.

Lemma moved_below_top (dx dy : Z) (p : Tetromino.t) :
  Forall in_bounds (Tetromino.blocks p) ->
  -1 <= dx <= 1 -> 0 <= dy <= 1 ->
  Forall (fun block => 0 <= y block) (Tetromino.getMovedShape dx dy p).
Proof.
  intros Hin Hdx Hdy. unfold Tetromino.getMovedShape.
  apply Forall_fmap. eapply Forall_impl; [exact Hin |].
  intros block [_ Hy]. cbn. unfold TetrisGame.GRID_HEIGHT in Hy.
  rewrite add_small by lia. lia.
Qed.

Lemma rotated_below_top (p : Tetromino.t) :
  Forall in_bounds (Tetromino.blocks p) ->
  Forall (fun block => 0 <= y block) (Tetromino.blocks (Tetromino.rotate p)).
Proof.
  intros Hin. cbn [Tetromino.rotate Tetromino.blocks].
  apply Forall_fmap. eapply Forall_impl; [exact Hin |].
  intros block [Hx _]. cbn. lia.
Qed.

Lemma tryMove_defined (dx dy : Z) (this : TetrisGame.t) :
  well_formed this -> -1 <= dx <= 1 -> 0 <= dy <= 1 ->
  exists this', TetrisGame.tryMove dx dy this = Some this' /\ well_formed this'.
Proof.
  intros [Hg Hin] Hdx Hdy. unfold TetrisGame.tryMove, TetrisGame.checkCollision.
  pose proof (moved_below_top dx dy _ Hin Hdx Hdy) as Hy.
  destruct (TetrisGame.checkCollision_loop (TetrisGame.grid this)
              (Tetromino.getMovedShape dx dy (TetrisGame.currentPiece this)))
    as [[|] |] eqn:Hc.
  - eexists. split; [reflexivity |]. now split.
  - eexists. split; [reflexivity |]. split; [exact Hg |].
    now apply (checkCollision_legal_in_bounds (TetrisGame.grid this)).
  - rewrite checkCollision_loop_spec in Hc by assumption. discriminate Hc.
Qed.

Lemma rotatePiece_defined (this : TetrisGame.t) :
  well_formed this ->
  exists this', TetrisGame.rotatePiece this = Some this' /\ well_formed this'.
Proof.
  intros [Hg Hin]. unfold TetrisGame.rotatePiece, TetrisGame.checkCollision.
  pose proof (rotated_below_top _ Hin) as Hy.
  destruct (TetrisGame.checkCollision_loop (TetrisGame.grid this)
              (Tetromino.blocks (Tetromino.rotate (TetrisGame.currentPiece this))))
    as [[|] |] eqn:Hc.
  - eexists. split; [reflexivity |]. now split.
  - eexists. split; [reflexivity |]. split; [exact Hg |].
    now apply (checkCollision_legal_in_bounds (TetrisGame.grid this)).
  - rewrite checkCollision_loop_spec in Hc by assumption. discriminate Hc.
Qed.

Lemma lockBlock_shape (g : list (list ascii)) (block : Point) :
  TetrisGame.grid_shape g -> TetrisGame.grid_shape (TetrisGame.lockBlock g block).
Proof.
  intros [Hlen Hrows]. unfold TetrisGame.lockBlock.
  destruct (decide _); [| now split]. split.
  - now rewrite length_alter.
  - apply Forall_alter; [exact Hrows |].
    intros row _ Hrow. now rewrite length_insert.
Qed.

Lemma lockPiece_shape (this : TetrisGame.t) :
  TetrisGame.grid_shape (TetrisGame.grid this) ->
  TetrisGame.grid_shape (TetrisGame.grid (TetrisGame.lockPiece this)).
Proof.
  cbn [TetrisGame.lockPiece TetrisGame.grid].
  generalize (TetrisGame.grid this) as g.
  induction (Tetromino.blocks (TetrisGame.currentPiece this)) as [| block rest IH];
    intros g Hg; [exact Hg |].
  cbn [fold_left]. apply IH. now apply lockBlock_shape.
Qed.

Lemma clearLines_shape (this : TetrisGame.t) :
  TetrisGame.grid_shape (TetrisGame.grid this) ->
  TetrisGame.grid_shape (TetrisGame.grid (fst (TetrisGame.clearLines this))).
Proof.
  intros [Hlen Hrows]. unfold TetrisGame.clearLines.
  pose proof (removeFullRows_length (TetrisGame.grid this)) as Hsum.
  rewrite (removeFullRows_spec 0) in *. cbn [fst snd TetrisGame.grid] in *.
  split.
  - rewrite length_app, length_replicate. lia.
  - apply Forall_app. split.
    + apply Forall_replicate. reflexivity.
    + rewrite Forall_forall in *. intros row Hrow.
      apply list_elem_of_filter in Hrow as [_ Hrow]. now apply Hrows.
Qed.

Lemma generateNewPiece_defined (r : Z) (this : TetrisGame.t) :
  0 <= r <= Int.INT_MAX ->
  TetrisGame.grid_shape (TetrisGame.grid this) ->
  exists this', TetrisGame.generateNewPiece r this = Some this' /\ well_formed this'.
Proof.
  intros Hr Hg. destruct (getRandomPieceType_spawnable r Hr) as (ty & Hty & _).
  unfold TetrisGame.generateNewPiece. rewrite Hty. cbn [mbind option_bind].
  rewrite checkCollision_new_defined by exact Hg. cbn [mbind option_bind].
  eexists. split; [reflexivity |].
  destruct (existsb _ _); (split; [exact Hg | apply new_blocks_in_bounds]).
Qed.

Lemma settle_defined (perLevel r : Z) (this : TetrisGame.t) :
  0 <= r <= Int.INT_MAX ->
  TetrisGame.grid_shape (TetrisGame.grid this) ->
  exists this', TetrisGame.settle perLevel r this = Some this' /\ well_formed this'.
Proof.
  intros Hr Hg. unfold TetrisGame.settle.
  pose proof (clearLines_shape _ (lockPiece_shape this Hg)) as Hshape.
  destruct (TetrisGame.clearLines (TetrisGame.lockPiece this)) as [cleared n].
  apply generateNewPiece_defined; [exact Hr | exact Hshape].
Qed.

Lemma step_defined (perLevel : Z) (i : TetrisGame.input) (this : TetrisGame.t) :
  well_formed this -> TetrisGame.input_ok i ->
  exists this', TetrisGame.step perLevel i this = Some this' /\ well_formed this'.
Proof.
  intros Hwf Hi. destruct i as [| | | | r]; cbn [TetrisGame.step].
  - apply tryMove_defined; [exact Hwf | lia | lia].
  - apply tryMove_defined; [exact Hwf | lia | lia].
  - now apply rotatePiece_defined.
  - apply tryMove_defined; [exact Hwf | lia | lia].
  - destruct (tryMove_defined 0 1 this Hwf) as (moved & Hmove & Hwf'); [lia | lia |].
    unfold TetrisGame.movePieceDown. unfold TetrisGame.tryMove in Hmove.
    destruct (TetrisGame.checkCollision this _) as [[|] |];
      cbn [mbind option_bind] in *; [| | discriminate Hmove].
    + apply settle_defined; [exact Hi | apply Hwf].
    + injection Hmove as <-. eexists. split; [reflexivity | exact Hwf'].
Qed.

Lemma session_well_formed (perLevel : Z) (this : TetrisGame.t) :
  TetrisGame.session perLevel this -> well_formed this.
Proof.
  induction 1 as [r g Hr Hnew | i g g' _ IH Hi Hstep].
  - destruct (new_defined r Hr) as (ty & _ & Hg). rewrite Hg in Hnew.
    injection Hnew as <-. split; [apply emptyGrid_shape | apply new_blocks_in_bounds].
  - destruct (step_defined perLevel i g IH Hi) as (g'' & Hstep' & Hwf).
    rewrite Hstep in Hstep'. now injection Hstep' as ->.
Qed.

(** In a session the collision check never indexes the grid out of
    range: every operation has a result, and the result is again a state
    of the session. *)
Lemma session_step_defined (perLevel : Z) (i : TetrisGame.input) (this : TetrisGame.t) :
  TetrisGame.session perLevel this -> TetrisGame.input_ok i ->
  exists this', TetrisGame.step perLevel i this = Some this' /\
                TetrisGame.session perLevel this'.
Proof.
  intros Hs Hi.
  destruct (step_defined perLevel i this (session_well_formed _ _ Hs) Hi)
    as (this' & Hstep & _).
  exists this'. split; [exact Hstep |].
  exact (TetrisGame.session_step perLevel i this this' Hs Hi Hstep).
Qed.

(** The game-over flag of a session is raised by a spawn only: the
    operations that do not spawn keep it. *)
Lemma step_gameOver (perLevel : Z) (i : TetrisGame.input) (this this' : TetrisGame.t) :
  TetrisGame.step perLevel i this = Some this' ->
  TetrisGame.gameOver this' <> TetrisGame.gameOver this ->
  exists r, i = TetrisGame.Gravity r /\
            TetrisGame.checkCollision this
              (Tetromino.getMovedShape 0 1 (TetrisGame.currentPiece this)) = Some true /\
            TetrisGame.checkCollision this'
              (Tetromino.blocks (TetrisGame.currentPiece this')) = Some true /\
            TetrisGame.gameOver this' = true.
Proof.
  intros Hstep Hflag.
  assert (Hmove : forall dx dy, TetrisGame.tryMove dx dy this = Some this' -> False).
  { intros dx dy H. unfold TetrisGame.tryMove in H.
    case_collision H; injection H as <-; now apply Hflag. }
  destruct i as [| | | | r]; cbn [TetrisGame.step] in Hstep;
    try (now exfalso; eapply Hmove; exact Hstep).
  - exfalso. unfold TetrisGame.rotatePiece in Hstep.
    case_collision Hstep; injection Hstep as <-; now apply Hflag.
  - exists r. split; [reflexivity |]. unfold TetrisGame.movePieceDown in Hstep.
    destruct (TetrisGame.checkCollision this _) as [[|] |];
      cbn [mbind option_bind] in Hstep; [| | discriminate Hstep].
    + split; [reflexivity |].
      unfold TetrisGame.settle in Hstep.
      destruct (TetrisGame.clearLines (TetrisGame.lockPiece this)) as [cleared n] eqn:Hclear.
      unfold TetrisGame.generateNewPiece in Hstep.
      destruct (TetrisGame.getRandomPieceType r) as [ty |];
        cbn [mbind option_bind] in Hstep; [| discriminate Hstep].
      assert (Hsame : TetrisGame.gameOver cleared = TetrisGame.gameOver this).
      { unfold TetrisGame.clearLines in Hclear.
        destruct (TetrisGame.removeFullRows _) as [kept k].
        injection Hclear as <- _. reflexivity. }
      destruct (TetrisGame.checkCollision _ _) as [[|] |] eqn:Hc;
        cbn [mbind option_bind] in Hstep; [| | discriminate Hstep];
        injection Hstep as <-.
      * split; [exact Hc | reflexivity].
      * exfalso. apply Hflag. cbn. exact Hsame.
    + exfalso. injection Hstep as <-. now apply Hflag.
Qed.

(** * Further properties of the source *)

(** ** Arithmetic modulo 2^32 *)

Lemma wrap_shift (z k : Z) : Int.wrap (z + k * 2 ^ 32) = Int.wrap z.
Proof.
  unfold Int.wrap. f_equal.
  replace (z + k * 2 ^ 32 + 2 ^ 31) with (z + 2 ^ 31 + k * 2 ^ 32) by lia.
  apply Z_mod_plus_full.
Qed.

Lemma wrap_decomp (z : Z) : exists k, Int.wrap z = z + k * 2 ^ 32.
Proof.
  exists (- ((z + 2 ^ 31) / 2 ^ 32)). unfold Int.wrap.
  rewrite Z.mod_eq by lia. lia.
Qed.

Lemma add_wrap_l (a b : Z) : Int.wrap (Int.wrap a + b) = Int.wrap (a + b).
Proof.
  destruct (wrap_decomp a) as [k ->].
  replace (a + k * 2 ^ 32 + b) with (a + b + k * 2 ^ 32) by lia.
  apply wrap_shift.
Qed.

Lemma add_wrap_r (a b : Z) : Int.wrap (a + Int.wrap b) = Int.wrap (a + b).
Proof. rewrite (Z.add_comm a), add_wrap_l. f_equal. lia. Qed.

Lemma neg_wrap (a : Z) : Int.wrap (- Int.wrap a) = Int.wrap (- a).
Proof.
  destruct (wrap_decomp a) as [k ->].
  replace (- (a + k * 2 ^ 32)) with (- a + (- k) * 2 ^ 32) by lia.
  apply wrap_shift.
Qed.

(** ** Moving and rotating a piece *)

(** X1: two moves in a row are one move by the sum of the offsets, the
    sums taken in [int]. *)
Theorem move_move (dx1 dy1 dx2 dy2 : Z) (p : Tetromino.t) :
  Tetromino.move dx2 dy2 (Tetromino.move dx1 dy1 p)
  = Tetromino.move (Int.add dx1 dx2) (Int.add dy1 dy2) p.
Proof.
  unfold Tetromino.move. cbn [Tetromino.type Tetromino.blocks Tetromino.rotation].
  f_equal. rewrite map_map. apply map_ext. intros [bx by_]. cbn [x y].
  unfold Int.add. rewrite !add_wrap_l, !add_wrap_r. f_equal; f_equal; lia.
Qed.

(** X2: moving a piece by an offset and then by the opposite offset gives
    back the piece. *)
Theorem move_back (dx dy : Z) (p : Tetromino.t) :
  Forall point_in_range (Tetromino.blocks p) ->
  Tetromino.move (Int.neg dx) (Int.neg dy) (Tetromino.move dx dy p) = p.
Proof.
  intros Hr. destruct p as [ty bs rot]. unfold Tetromino.move.
  cbn [Tetromino.type Tetromino.blocks Tetromino.rotation] in *. f_equal.
  rewrite map_map. induction Hr as [| [bx by_] rest [Hx Hy] _ IH]; [reflexivity |].
  cbn [map x y] in *. rewrite IH. f_equal.
  unfold Int.add, Int.neg. rewrite !add_wrap_l, !add_wrap_r.
  replace (bx + dx + - dx) with bx by lia.
  replace (by_ + dy + - dy) with by_ by lia.
  now rewrite !wrap_in_range.
Qed.

Lemma move_back_witness :
  Forall point_in_range (Tetromino.blocks (Tetromino.new TetrominoType.T)) /\
  Tetromino.move (Int.neg 3) (Int.neg 5)
    (Tetromino.move 3 5 (Tetromino.new TetrominoType.T))
  = Tetromino.new TetrominoType.T.
Proof.
  split; [exact T_piece_in_range |].
  apply (move_back 3 5 (Tetromino.new TetrominoType.T)). exact T_piece_in_range.
Defined.

(** X3: rotating a moved piece is moving the rotated piece by the rotated
    offset: [rotate] after [move dx dy] equals [move (-dy) dx] after
    [rotate]. *)
Theorem rotate_move (dx dy : Z) (p : Tetromino.t) :
  Tetromino.rotate (Tetromino.move dx dy p)
  = Tetromino.move (Int.neg dy) dx (Tetromino.rotate p).
Proof.
  unfold Tetromino.move, Tetromino.rotate.
  cbn [Tetromino.type Tetromino.blocks Tetromino.rotation]. f_equal.
  rewrite !map_map. apply map_ext. intros [bx by_]. cbn [x y].
  unfold Int.add, Int.neg. rewrite neg_wrap, add_wrap_l, add_wrap_r.
  f_equal. f_equal. lia.
Qed.

(** ** The verdicts of the collision check *)

Lemma cell_some_row (g : list (list ascii)) (block : Point) (c : ascii) :
  TetrisGame.cell g block = Some c -> 0 <= y block.
Proof.
  intros Hc. destruct (decide (0 <= y block)) as [Hy | Hy]; [exact Hy |].
  rewrite cell_negative_row in Hc by lia. discriminate Hc.
Qed.

(** X4: the check answers "legal" exactly when every block of the
    candidate lies inside the grid on a blank cell; a candidate with a
    block outside the grid, above the top row included, is never
    reported legal. *)
Theorem checkCollision_legal_iff (this : TetrisGame.t) (blocks : list Point) :
  TetrisGame.checkCollision this blocks = Some false <->
  Forall (fun block => in_bounds block /\
                       TetrisGame.cell (TetrisGame.grid this) block
                       = Some TetrisGame.blank) blocks.
Proof.
  unfold TetrisGame.checkCollision. generalize (TetrisGame.grid this) as g. intros g.
  induction blocks as [| block rest IH]; [split; [constructor | reflexivity] |].
  cbn [TetrisGame.checkCollision_loop]. rewrite Forall_cons. split.
  - destruct (TetrisGame.out_of_bounds block) eqn:Hb; [discriminate |].
    destruct (TetrisGame.cell g block) as [c |] eqn:Hc; cbn; [| discriminate].
    destruct (bool_decide (c <> TetrisGame.blank)) eqn:Hblank; [discriminate |].
    intros Hrest. apply bool_decide_eq_false in Hblank.
    apply not_out_of_bounds in Hb. apply cell_some_row in Hc as Hy.
    split; [| now apply IH]. split; [split; [tauto | lia] |].
    f_equal. destruct (decide (c = TetrisGame.blank)); [assumption | contradiction].
  - intros [[[Hx Hy] Hc] Hrest].
    replace (TetrisGame.out_of_bounds block) with false
      by (symmetry; apply not_true_is_false; rewrite out_of_bounds_true; lia).
    rewrite Hc. cbn. rewrite bool_decide_eq_false_2 by (intros Hne; now apply Hne).
    now apply IH.
Qed.

(** X5: on a grid of 20 rows of 10 cells and for a candidate with no
    block above the top row the check always has a verdict, and the
    verdict is "collision" exactly when some block is left of column 0,
    right of column 9, below row 19 or on a non-blank cell. *)
Theorem checkCollision_verdict (this : TetrisGame.t) (blocks : list Point) :
  TetrisGame.grid_shape (TetrisGame.grid this) ->
  Forall (fun block => 0 <= y block) blocks ->
  exists verdict,
    TetrisGame.checkCollision this blocks = Some verdict /\
    (verdict = true <->
     Exists (fun block => x block < 0 \/ x block >= TetrisGame.GRID_WIDTH \/
                          y block >= TetrisGame.GRID_HEIGHT \/
                          occupied (TetrisGame.grid this) block = true) blocks).
Proof.
  intros Hg Hy. exists (existsb (collides_at (TetrisGame.grid this)) blocks).
  split; [now apply checkCollision_loop_spec |].
  rewrite existsb_exists, Exists_exists. split.
  - intros (block & Hin & Hc). exists block. split; [now apply list_elem_of_In |].
    unfold collides_at in Hc. apply orb_true_iff in Hc as [Hc | Hc].
    + apply out_of_bounds_true in Hc. tauto.
    + tauto.
  - intros (block & Hin & Hc). exists block. split; [now apply list_elem_of_In |].
    unfold collides_at. apply orb_true_iff.
    destruct Hc as [Hc | [Hc | [Hc | Hc]]]; [left | left | left | now right];
      apply out_of_bounds_true; tauto.
Qed.

Lemma checkCollision_verdict_witness :
  TetrisGame.grid_shape (TetrisGame.grid toppedOut) /\
  Forall (fun block => 0 <= y block) [pt 5 0; pt 1 3] /\
  exists verdict,
    TetrisGame.checkCollision toppedOut [pt 5 0; pt 1 3] = Some verdict /\
    (verdict = true <->
     Exists (fun block => x block < 0 \/ x block >= TetrisGame.GRID_WIDTH \/
                          y block >= TetrisGame.GRID_HEIGHT \/
                          occupied (TetrisGame.grid toppedOut) block = true)
            [pt 5 0; pt 1 3]).
Proof.
  assert (Hg : TetrisGame.grid_shape (TetrisGame.grid toppedOut))
    by (split; [reflexivity | repeat constructor]).
  assert (Hy : Forall (fun block => 0 <= y block) [pt 5 0; pt 1 3])
    by (repeat constructor; cbv; intros Hc; discriminate Hc).
  exact (conj Hg (conj Hy (checkCollision_verdict toppedOut [pt 5 0; pt 1 3] Hg Hy))).
Defined.

(** X6: the check of a candidate made of two parts stops in the first
    part unless the first part is legal: a collision or an out-of-range
    read in the first part is the result, and only after a legal first
    part is the second part examined. *)
Theorem checkCollision_app (this : TetrisGame.t) (first rest : list Point) :
  TetrisGame.checkCollision this (first ++ rest)
  = match TetrisGame.checkCollision this first with
    | Some false => TetrisGame.checkCollision this rest
    | stopped => stopped
    end.
Proof.
  unfold TetrisGame.checkCollision. generalize (TetrisGame.grid this) as g. intros g.
  induction first as [| block first IH]; [reflexivity |].
  cbn [app TetrisGame.checkCollision_loop].
  destruct (TetrisGame.out_of_bounds block); [reflexivity |].
  destruct (TetrisGame.cell g block) as [c |]; cbn; [| reflexivity].
  destruct (bool_decide (c <> TetrisGame.blank)); [reflexivity | exact IH].
Qed.

(** ** Candidates at the walls, the floor and after a rotation *)

Lemma moved_collides (this : TetrisGame.t) (p : Tetromino.t) (dx dy : Z) :
  TetrisGame.grid_shape (TetrisGame.grid this) ->
  Forall in_bounds (Tetromino.blocks p) ->
  -1 <= dx <= 1 -> 0 <= dy <= 1 ->
  Exists (fun block => x block + dx < 0 \/ x block + dx >= TetrisGame.GRID_WIDTH \/
                       y block + dy >= TetrisGame.GRID_HEIGHT) (Tetromino.blocks p) ->
  TetrisGame.checkCollision this (Tetromino.getMovedShape dx dy p) = Some true.
Proof.
  intros Hg Hin Hdx Hdy Hex. unfold TetrisGame.checkCollision.
  apply checkCollision_true; [exact Hg | now apply moved_below_top |].
  unfold Tetromino.getMovedShape. apply Exists_fmap.
  rewrite Forall_forall in Hin. apply Exists_exists in Hex as (block & Hel & Hb).
  apply Exists_exists. exists block. split; [exact Hel |].
  destruct (Hin block Hel) as [Hx Hy].
  unfold TetrisGame.GRID_WIDTH, TetrisGame.GRID_HEIGHT in *.
  unfold compose. cbn [x y]. rewrite !add_small by lia. lia.
Qed.

(** X7: the walls and the floor stop a piece that is inside the grid:
    with a block in column 0 the candidate one column to the left
    collides, with a block in column 9 the candidate one column to the
    right collides, and with a block in row 19 the candidate one row down
    collides. *)
Theorem walls_and_floor (this : TetrisGame.t) (p : Tetromino.t) :
  TetrisGame.grid_shape (TetrisGame.grid this) ->
  Forall in_bounds (Tetromino.blocks p) ->
  (Exists (fun block => x block = 0) (Tetromino.blocks p) ->
   TetrisGame.checkCollision this (Tetromino.getMovedShape (-1) 0 p) = Some true) /\
  (Exists (fun block => x block = TetrisGame.GRID_WIDTH - 1) (Tetromino.blocks p) ->
   TetrisGame.checkCollision this (Tetromino.getMovedShape 1 0 p) = Some true) /\
  (Exists (fun block => y block = TetrisGame.GRID_HEIGHT - 1) (Tetromino.blocks p) ->
   TetrisGame.checkCollision this (Tetromino.getMovedShape 0 1 p) = Some true).
Proof.
  intros Hg Hin.
  repeat split; intros Hex; (apply moved_collides; [exact Hg | exact Hin | lia | lia |]);
    (eapply Exists_impl; [exact Hex |]); cbn beta; intros block Hb;
    unfold TetrisGame.GRID_WIDTH, TetrisGame.GRID_HEIGHT in *; lia.
Qed.

Lemma walls_and_floor_witness :
  TetrisGame.grid_shape (TetrisGame.grid firstGame) /\
  Forall in_bounds (Tetromino.blocks (TetrisGame.currentPiece beforeClear)) /\
  Exists (fun block => x block = TetrisGame.GRID_WIDTH - 1)
         (Tetromino.blocks (TetrisGame.currentPiece beforeClear)) /\
  Exists (fun block => y block = TetrisGame.GRID_HEIGHT - 1)
         (Tetromino.blocks (TetrisGame.currentPiece beforeClear)) /\
  TetrisGame.checkCollision firstGame
    (Tetromino.getMovedShape 1 0 (TetrisGame.currentPiece beforeClear)) = Some true /\
  TetrisGame.checkCollision firstGame
    (Tetromino.getMovedShape 0 1 (TetrisGame.currentPiece beforeClear)) = Some true.
Proof.
  assert (Hg : TetrisGame.grid_shape (TetrisGame.grid firstGame))
    by (split; [reflexivity | repeat constructor]).
  assert (Hin : Forall in_bounds (Tetromino.blocks (TetrisGame.currentPiece beforeClear)))
    by (vm_compute; repeat constructor; intros Hc; discriminate Hc).
  assert (Hright : Exists (fun block => x block = TetrisGame.GRID_WIDTH - 1)
                     (Tetromino.blocks (TetrisGame.currentPiece beforeClear)))
    by (vm_compute; apply Exists_cons_tl, Exists_cons_hd; reflexivity).
  assert (Hfloor : Exists (fun block => y block = TetrisGame.GRID_HEIGHT - 1)
                     (Tetromino.blocks (TetrisGame.currentPiece beforeClear)))
    by (vm_compute; apply Exists_cons_tl, Exists_cons_tl, Exists_cons_hd; reflexivity).
  pose proof (walls_and_floor firstGame (TetrisGame.currentPiece beforeClear) Hg Hin)
    as (_ & Hr & Hf).
  exact (conj Hg (conj Hin (conj Hright (conj Hfloor (conj (Hr Hright) (Hf Hfloor)))))).
Defined.

(** X8: a piece inside the grid with a block below the top row cannot be
    rotated: [rotate] sends the block (x, y) to (-y, x), left of column 0
    when y > 0, and the check of the rotated blocks answers "collision"
    whatever the grid holds. *)
Theorem rotate_rejected_below_top_row (this : TetrisGame.t) (p : Tetromino.t) :
  TetrisGame.grid_shape (TetrisGame.grid this) ->
  Forall in_bounds (Tetromino.blocks p) ->
  Exists (fun block => 0 < y block) (Tetromino.blocks p) ->
  TetrisGame.checkCollision this (Tetromino.blocks (Tetromino.rotate p)) = Some true.
Proof.
  intros Hg Hin Hex. unfold TetrisGame.checkCollision.
  apply checkCollision_true; [exact Hg | now apply rotated_below_top |].
  cbn [Tetromino.rotate Tetromino.blocks]. apply Exists_fmap.
  rewrite Forall_forall in Hin. apply Exists_exists in Hex as (block & Hel & Hb).
  apply Exists_exists. exists block. split; [exact Hel |].
  destruct (Hin block Hel) as [_ Hy]. unfold TetrisGame.GRID_HEIGHT in Hy.
  unfold compose. left. cbn [x]. rewrite neg_small by lia. lia.
Qed.

Lemma rotate_rejected_below_top_row_witness :
  TetrisGame.grid_shape (TetrisGame.grid firstGame) /\
  Forall in_bounds (Tetromino.blocks (Tetromino.new TetrominoType.O)) /\
  Exists (fun block => 0 < y block) (Tetromino.blocks (Tetromino.new TetrominoType.O)) /\
  TetrisGame.checkCollision firstGame
    (Tetromino.blocks (Tetromino.rotate (Tetromino.new TetrominoType.O))) = Some true.
Proof.
  assert (Hg : TetrisGame.grid_shape (TetrisGame.grid firstGame))
    by (split; [reflexivity | repeat constructor]).
  assert (Hin : Forall in_bounds (Tetromino.blocks (Tetromino.new TetrominoType.O)))
    by (repeat constructor; cbv; intros Hc; discriminate Hc).
  assert (Hex : Exists (fun block => 0 < y block)
                  (Tetromino.blocks (Tetromino.new TetrominoType.O)))
    by (apply Exists_cons_tl, Exists_cons_tl, Exists_cons_hd; reflexivity).
  exact (conj Hg (conj Hin (conj Hex
    (rotate_rejected_below_top_row firstGame (Tetromino.new TetrominoType.O) Hg Hin Hex)))).
Defined.

(** ** Spawning and construction *)

(** X9: every constructed piece occupies distinct cells of rows 0-1 and
    columns 0-3, so on a grid of 20 rows of 10 cells its collision check
    always has a verdict: whether one of those cells is non-blank. *)
Theorem spawn_check (this : TetrisGame.t) (ty : TetrominoType.t) :
  TetrisGame.grid_shape (TetrisGame.grid this) ->
  Forall (fun block => 0 <= x block <= 3 /\ 0 <= y block <= 1)
         (Tetromino.blocks (Tetromino.new ty)) /\
  NoDup (Tetromino.blocks (Tetromino.new ty)) /\
  TetrisGame.checkCollision this (Tetromino.blocks (Tetromino.new ty))
  = Some (existsb (occupied (TetrisGame.grid this)) (Tetromino.blocks (Tetromino.new ty))).
Proof.
  intros Hg. split; [| split].
  - destruct ty; cbn; repeat constructor; cbv; intros Hc; discriminate Hc.
  - destruct ty; apply (bool_decide_unpack _); vm_compute; exact Logic.I.
  - now apply checkCollision_new_defined.
Qed.

Lemma spawn_check_witness :
  TetrisGame.grid_shape (TetrisGame.grid toppedOut) /\
  Forall (fun block => 0 <= x block <= 3 /\ 0 <= y block <= 1)
         (Tetromino.blocks (Tetromino.new TetrominoType.L)) /\
  NoDup (Tetromino.blocks (Tetromino.new TetrominoType.L)) /\
  TetrisGame.checkCollision toppedOut (Tetromino.blocks (Tetromino.new TetrominoType.L))
  = Some (existsb (occupied (TetrisGame.grid toppedOut))
                  (Tetromino.blocks (Tetromino.new TetrominoType.L))).
Proof.
  assert (Hg : TetrisGame.grid_shape (TetrisGame.grid toppedOut))
    by (split; [reflexivity | repeat constructor]).
  exact (conj Hg (spawn_check toppedOut TetrominoType.L Hg)).
Defined.

(** X10: [initializeGame] empties the grid and spawns a piece of one of
    the seven types, and that is all it does: the spawn on the empty grid
    never collides, so the game-over flag, like the score, the level, the
    line total and the pause flag, is left as it was.  The constructed
    game is therefore an empty grid with score 0, level 1, no lines, not
    over and not paused. *)
Theorem initializeGame_resets_grid_only (r : Z) (this : TetrisGame.t) :
  0 <= r <= Int.INT_MAX ->
  exists ty,
    TetrisGame.getRandomPieceType r = Some ty /\
    ty <> TetrominoType.NONE /\
    TetrisGame.initializeGame r this
    = Some (TetrisGame.mk TetrisGame.emptyGrid (Tetromino.new ty)
              (TetrisGame.score this) (TetrisGame.level this)
              (TetrisGame.linesCleared this) (TetrisGame.gameOver this)
              (TetrisGame.paused this)) /\
    TetrisGame.new r
    = Some (TetrisGame.mk TetrisGame.emptyGrid (Tetromino.new ty) 0 1 0 false false).
Proof.
  intros Hr. destruct (getRandomPieceType_spawnable r Hr) as (ty & Hty & Hne).
  exists ty. split; [exact Hty |]. split; [exact Hne |].
  unfold TetrisGame.new, TetrisGame.initializeGame, TetrisGame.generateNewPiece.
  rewrite Hty. cbn [mbind option_bind]. unfold TetrisGame.checkCollision.
  cbn [TetrisGame.grid].
  rewrite checkCollision_empty by apply new_blocks_in_bounds.
  split; reflexivity.
Qed.

Lemma initializeGame_resets_grid_only_witness :
  0 <= 4 <= Int.INT_MAX /\
  exists ty,
    TetrisGame.getRandomPieceType 4 = Some ty /\
    ty <> TetrominoType.NONE /\
    TetrisGame.initializeGame 4 toppedOut
    = Some (TetrisGame.mk TetrisGame.emptyGrid (Tetromino.new ty)
              (TetrisGame.score toppedOut) (TetrisGame.level toppedOut)
              (TetrisGame.linesCleared toppedOut) (TetrisGame.gameOver toppedOut)
              (TetrisGame.paused toppedOut)) /\
    TetrisGame.new 4
    = Some (TetrisGame.mk TetrisGame.emptyGrid (Tetromino.new ty) 0 1 0 false false).
Proof.
  assert (Hr : 0 <= 4 <= Int.INT_MAX) by (unfold Int.INT_MAX; lia).
  exact (conj Hr (initializeGame_resets_grid_only 4 toppedOut Hr)).
Defined.

(** ** The draw *)

(** X12: every one of the seven types is drawn, and the draw depends on
    the value of [std::rand()] modulo 7 only: the value [(int)ty + 7 k]
    gives the type [ty]. *)
Theorem getRandomPieceType_draws (ty : TetrominoType.t) (k : Z) :
  ty <> TetrominoType.NONE -> 0 <= k ->
  TetrisGame.getRandomPieceType (int_of_type ty + 7 * k) = Some ty.
Proof.
  intros Hne Hk. unfold TetrisGame.getRandomPieceType, Int.rem.
  assert (Hty : 0 <= int_of_type ty < 7) by (destruct ty; cbn; [lia .. | congruence]).
  rewrite Z.rem_mod_nonneg by lia.
  replace (int_of_type ty + 7 * k) with (int_of_type ty + k * 7) by lia.
  rewrite Z_mod_plus_full, Z.mod_small by lia.
  now destruct ty.
Qed.

Lemma getRandomPieceType_draws_witness :
  TetrominoType.J <> TetrominoType.NONE /\ 0 <= 3 /\
  TetrisGame.getRandomPieceType (int_of_type TetrominoType.J + 7 * 3)
  = Some TetrominoType.J.
Proof.
  assert (Hne : TetrominoType.J <> TetrominoType.NONE) by (intros Hc; discriminate Hc).
  assert (Hk : 0 <= 3) by lia.
  exact (conj Hne (conj Hk (getRandomPieceType_draws TetrominoType.J 3 Hne Hk))).
Defined.

(** ** The frame [drawGrid] writes *)

Lemma drawCell_marked (c1 c2 : ascii) :
  TetrisGame.drawCell c1 = TetrisGame.drawCell c2 <->
  bool_decide (c1 = "#"%char) = bool_decide (c2 = "#"%char).
Proof.
  unfold TetrisGame.drawCell.
  destruct (decide (c1 = "#"%char)) as [H1 | H1], (decide (c2 = "#"%char)) as [H2 | H2];
    rewrite ?(bool_decide_eq_true_2 _ H1), ?(bool_decide_eq_true_2 _ H2),
            ?(bool_decide_eq_false_2 _ H1), ?(bool_decide_eq_false_2 _ H2);
    split; intros H; (reflexivity || discriminate H).
Qed.

Lemma drawCell_head (c : ascii) (rest : list ascii) :
  exists a b, TetrisGame.drawCell c ++ rest = a :: b :: rest /\ a <> "|"%char.
Proof.
  unfold TetrisGame.drawCell. destruct (decide (c = "#"%char));
    eexists _, _; (split; [reflexivity | discriminate]).
Qed.

(** The cells of a row are read back from the text up to the closing
    bar. *)
Lemma drawCells_inj (r1 r2 : list ascii) (t1 t2 : list ascii) :
  concat (map TetrisGame.drawCell r1) ++ "|"%char :: t1
  = concat (map TetrisGame.drawCell r2) ++ "|"%char :: t2 ->
  map (fun c => bool_decide (c = "#"%char)) r1
  = map (fun c => bool_decide (c = "#"%char)) r2 /\ t1 = t2.
Proof.
  revert r2. induction r1 as [| c1 r1 IH]; intros [| c2 r2] H; cbn [map concat] in *.
  - injection H as ->. now split.
  - rewrite <- app_assoc in H.
    destruct (drawCell_head c2 (concat (map TetrisGame.drawCell r2) ++ "|"%char :: t2))
      as (a & b & Hd & Ha).
    rewrite Hd in H. injection H as <- _. contradiction.
  - rewrite <- app_assoc in H.
    destruct (drawCell_head c1 (concat (map TetrisGame.drawCell r1) ++ "|"%char :: t1))
      as (a & b & Hd & Ha).
    rewrite Hd in H. injection H as -> _. contradiction.
  - rewrite <- !app_assoc in H.
    assert (Hcell : TetrisGame.drawCell c1 = TetrisGame.drawCell c2 /\
                    concat (map TetrisGame.drawCell r1) ++ "|"%char :: t1
                    = concat (map TetrisGame.drawCell r2) ++ "|"%char :: t2).
    { unfold TetrisGame.drawCell in *.
      destruct (decide (c1 = "#"%char)), (decide (c2 = "#"%char));
        cbn [app] in H; injection H as H; try discriminate; now split. }
    destruct Hcell as [Hc Hrest]. apply IH in Hrest as [Hmask ->].
    split; [| reflexivity]. f_equal; [now apply drawCell_marked | exact Hmask].
Qed.

Lemma drawRow_inj (r1 r2 : list ascii) (t1 t2 : list ascii) :
  TetrisGame.drawRow r1 ++ t1 = TetrisGame.drawRow r2 ++ t2 ->
  map (fun c => bool_decide (c = "#"%char)) r1
  = map (fun c => bool_decide (c = "#"%char)) r2 /\ t1 = t2.
Proof.
  unfold TetrisGame.drawRow. cbn [app]. rewrite <- !app_assoc. cbn [app].
  intros [= H]. apply drawCells_inj in H as [Hmask [= ->]]. now split.
Qed.

Lemma drawRows_marked (g1 g2 : list (list ascii)) :
  TetrisGame.drawRows g1 = TetrisGame.drawRows g2 <-> marked g1 = marked g2.
Proof.
  unfold TetrisGame.drawRows, marked. split.
  - revert g2. induction g1 as [| r1 g1 IH]; intros [| r2 g2] H; cbn [map concat] in *;
      try reflexivity; try discriminate H.
    apply drawRow_inj in H as [Hmask Hrest]. f_equal; [exact Hmask | now apply IH].
  - revert g2. induction g1 as [| r1 g1 IH]; intros [| r2 g2] H; cbn [map concat] in *;
      try reflexivity; try discriminate H.
    injection H as Hmask Hrest. f_equal; [| now apply IH].
    unfold TetrisGame.drawRow. do 3 f_equal.
    revert r2 Hmask. induction r1 as [| c1 r1 IHr]; intros [| c2 r2] Hmask;
      try reflexivity; try discriminate Hmask.
    cbn [map] in *. injection Hmask as Hc Hmask.
    f_equal; [now apply drawCell_marked | now apply IHr].
Qed.

Lemma drawRow_length (row : list ascii) :
  length (TetrisGame.drawRow row) = (2 * length row + 3)%nat.
Proof.
  unfold TetrisGame.drawRow. cbn [length]. rewrite length_app. cbn [length].
  assert (Hcells : length (concat (map TetrisGame.drawCell row)) = (2 * length row)%nat).
  { induction row as [| c row IH]; [reflexivity |].
    cbn [map concat]. rewrite length_app, IH. unfold TetrisGame.drawCell.
    destruct (decide _); cbn [length]; lia. }
  lia.
Qed.

(** X13: every row is written as a line of two characters per cell
    between two bars, closed by a line break; the 20 rows of 10 cells of
    the grid take 20 lines of 23 characters. *)
Theorem drawRows_size (g : list (list ascii)) :
  TetrisGame.grid_shape g ->
  Forall (fun row => exists cells,
            TetrisGame.drawRow row = "|"%char :: cells ++ ["|"%char; TetrisGame.newline] /\
            length cells = 20%nat) g /\
  length (TetrisGame.drawRows g) = 460%nat.
Proof.
  intros [Hlen Hrows]. split.
  - eapply Forall_impl; [exact Hrows |]. intros row Hrow.
    exists (concat (map TetrisGame.drawCell row)). split; [reflexivity |].
    pose proof (drawRow_length row) as Hl. unfold TetrisGame.drawRow in Hl.
    cbn [length] in Hl. rewrite length_app in Hl. cbn [length] in Hl.
    rewrite Hrow in Hl. change (Z.to_nat TetrisGame.GRID_WIDTH) with 10%nat in Hl. lia.
  - unfold TetrisGame.drawRows.
    assert (Hsum : forall rows : list (list ascii),
               Forall (fun row => length row = Z.to_nat TetrisGame.GRID_WIDTH) rows ->
               length (concat (map TetrisGame.drawRow rows)) = (23 * length rows)%nat).
    { induction 1 as [| row rows Hrow _ IH]; [reflexivity |].
      cbn [map concat length]. rewrite length_app, IH, drawRow_length, Hrow.
      change (Z.to_nat TetrisGame.GRID_WIDTH) with 10%nat. lia. }
    rewrite (Hsum g Hrows), Hlen. reflexivity.
Qed.

Lemma drawRows_size_witness :
  TetrisGame.grid_shape rows57 /\
  Forall (fun row => exists cells,
            TetrisGame.drawRow row = "|"%char :: cells ++ ["|"%char; TetrisGame.newline] /\
            length cells = 20%nat) rows57 /\
  length (TetrisGame.drawRows rows57) = 460%nat.
Proof.
  assert (Hg : TetrisGame.grid_shape rows57)
    by (split; [reflexivity | repeat constructor]).
  exact (conj Hg (drawRows_size rows57 Hg)).
Defined.

Lemma pretty_N_char_plain (d : N) : plain_char (pretty_N_char d).
Proof.
  unfold plain_char, pretty_N_char, TetrisGame.newline.
  split; repeat case_match; discriminate.
Qed.

Lemma pretty_N_go_plain (n : N) (s : string) :
  Forall plain_char (String.list_ascii_of_string s) ->
  Forall plain_char (String.list_ascii_of_string (pretty_N_go n s)).
Proof.
  revert s. induction (N.lt_wf_0 n) as [n _ IH]. intros s Hs.
  assert (Hn : (n = 0 \/ 0 < n)%N) by lia. destruct Hn as [-> | Hn].
  - now rewrite pretty_N_go_0.
  - rewrite pretty_N_go_step by exact Hn. apply IH.
    + now apply N.div_lt.
    + cbn [String.list_ascii_of_string]. constructor; [apply pretty_N_char_plain | exact Hs].
Qed.

Lemma pretty_Z_plain (z : Z) :
  Forall plain_char (String.list_ascii_of_string (pretty z)).
Proof.
  assert (Hpos : forall q : positive,
             Forall plain_char (String.list_ascii_of_string (pretty q))).
  { intros q. unfold pretty, pretty_positive, pretty, pretty_N.
    rewrite decide_False by discriminate. apply pretty_N_go_plain. constructor. }
  assert (Hzero : Forall plain_char (String.list_ascii_of_string "0"))
    by (repeat constructor; discriminate).
  destruct z as [| q | q]; unfold pretty, pretty_Z; [exact Hzero | apply Hpos |].
  cbn [String.append String.list_ascii_of_string].
  constructor; [split; discriminate | apply Hpos].
Qed.

(** Two texts that agree and whose first parts are free of a separator
    agree part by part around the first separator. *)
Lemma split_at_separator (sep : ascii) (l1 l2 r1 r2 : list ascii) :
  Forall (fun c => c <> sep) l1 -> Forall (fun c => c <> sep) l2 ->
  l1 ++ sep :: r1 = l2 ++ sep :: r2 -> l1 = l2 /\ r1 = r2.
Proof.
  intros H1. revert l2. induction H1 as [| c1 l1 Hc1 _ IH]; intros l2 H2 H.
  - destruct H2 as [| c2 l2 Hc2 _]; cbn [app] in H.
    + injection H as ->. now split.
    + injection H as <- _. contradiction.
  - destruct H2 as [| c2 l2 Hc2 H2]; cbn [app] in H.
    + injection H as -> _. contradiction.
    + injection H as -> H. apply IH in H as [-> ->]; [now split | exact H2].
Qed.

Lemma list_ascii_of_string_inj (s1 s2 : string) :
  String.list_ascii_of_string s1 = String.list_ascii_of_string s2 -> s1 = s2.
Proof.
  intros H. apply (f_equal String.string_of_list_ascii) in H.
  now rewrite !String.string_of_list_ascii_of_string in H.
Qed.

(** X14: a frame shows the score, the level and the cells that hold the
    marker ['#'], and nothing else of the game: two games give the same
    text exactly when they agree on these three.  In particular the
    falling piece is not part of the frame, and a cell holding any other
    character is drawn like a blank one. *)
Theorem drawGrid_shows (a b : TetrisGame.t) :
  TetrisGame.drawGrid a = TetrisGame.drawGrid b <->
  TetrisGame.score a = TetrisGame.score b /\
  TetrisGame.level a = TetrisGame.level b /\
  marked (TetrisGame.grid a) = marked (TetrisGame.grid b).
Proof.
  unfold TetrisGame.drawGrid, TetrisGame.drawHeader. split.
  - intros H. rewrite <- !app_assoc in H. apply app_inv_head in H.
    change (String.list_ascii_of_string " Level: ")
      with (" "%char :: String.list_ascii_of_string "Level: ") in H.
    cbn [app] in H.
    apply split_at_separator in H as [Hscore H];
      [| eapply Forall_impl; [apply pretty_Z_plain | intros c Hc; apply Hc] ..].
    apply app_inv_head in H.
    apply split_at_separator in H as [Hlevel H];
      [| eapply Forall_impl; [apply pretty_Z_plain | intros c Hc; apply Hc] ..].
    apply list_ascii_of_string_inj, pretty_Z_inj in Hscore, Hlevel.
    split; [exact Hscore |]. split; [exact Hlevel |]. now apply drawRows_marked.
  - intros (-> & -> & Hmarked). f_equal. now apply drawRows_marked.
Qed.

(** The frame after the cleared line of the short game: its first line
    and its last. *)
Example drawGrid_afterClear :
  take 19 (TetrisGame.drawGrid afterClear)
  = String.list_ascii_of_string "Score: 80 Level: 1" ++ [TetrisGame.newline] /\
  drop (19 + 19 * 23) (TetrisGame.drawGrid afterClear)
  = String.list_ascii_of_string "|                [][]|" ++ [TetrisGame.newline].
Proof. vm_compute. split; reflexivity. Qed.
